(** * Inventory ingestion and aggregation pipeline

    A shallow embedding of [utils.py], [ingestion.py] and [aggregate.py]:
    the relational sink behind the [pyodbc] cursor is a finite map from
    table names to tables, Python code that talks to the cursor is written
    in a state-and-exception monad over that sink, and the aggregation
    query is written as list operations over typed rows. *)

From Stdlib Require Import ZArith QArith String Ascii List Permutation Sorted Lia.
From stdpp Require Import base option list gmap strings pretty.

Open Scope string_scope.
Open Scope list_scope.
Open Scope nat_scope.

(** ** The relational sink *)

Module Sink.

(** A table keeps its column definitions (name, declared type) in
    creation order and its rows in insertion order; every cell that
    ingestion writes is text. *)
Record table := Table {
  tbl_cols : list (string * string);
  tbl_rows : list (list string)
}.

#[global] Instance table_eq_dec : EqDecision table.
Proof. solve_decision. Defined.

Abbreviation db := (gmap string table).

(** The three statement shapes the Python code sends. *)
Inductive statement :=
| DropTableIfExists (t : string)
| CreateTable (t : string) (defs : list (string * string))
| InsertInto (t : string) (cols : list string).

Definition join (sep : string) (l : list string) : string :=
  String.concat sep l.

(** The SQL text of a statement, as the f-strings build it. *)
Definition sql_text (s : statement) : string :=
  match s with
  | DropTableIfExists t =>
      "IF OBJECT_ID(N'" +:+ t +:+ "', 'U') IS NOT NULL DROP TABLE " +:+ t +:+ ";"
  | CreateTable t defs =>
      "CREATE TABLE " +:+ t +:+ " ("
        +:+ join ", " (map (fun d => "[" +:+ fst d +:+ "] " +:+ snd d) defs) +:+ ");"
  | InsertInto t cols =>
      "INSERT INTO " +:+ t +:+ " ("
        +:+ join ", " (map (fun c => "[" +:+ c +:+ "]") cols)
        +:+ ") VALUES (" +:+ join ", " (map (fun _ => "?") cols) +:+ ")"
  end.

Inductive sink_error :=
| TableExists (t : string)
| NoColumns (t : string)
| DuplicateColumn (t : string)
| NoSuchTable (t : string)
| InvalidColumns (t : string)
| WrongArity (t : string)
| NotADataStatement
| DivideByZero.

Definition distinct (l : list string) : bool := bool_decide (NoDup l).

(** [cursor.execute]: DROP removes the table when it is there, CREATE
    refuses an existing name, an empty column list and repeated column
    names. *)
Definition exec (s : statement) (d : db) : sink_error + db :=
  match s with
  | DropTableIfExists t => inr (delete t d)
  | CreateTable t defs =>
      match d !! t with
      | Some _ => inl (TableExists t)
      | None =>
          match defs with
          | [] => inl (NoColumns t)
          | _ =>
              if distinct (map fst defs)
              then inr (<[t := Table defs []]> d)
              else inl (DuplicateColumn t)
          end
      end
  | InsertInto _ _ => inl NotADataStatement
  end.

(** [cursor.executemany] of a parameterised INSERT: the column list must
    be the table's, every parameter row must have one value per
    placeholder, and the rows are appended in order. *)
Definition exec_many (s : statement) (rows : list (list string)) (d : db)
  : sink_error + db :=
  match s with
  | InsertInto t cols =>
      match d !! t with
      | None => inl (NoSuchTable t)
      | Some tb =>
          if bool_decide (cols = map fst (tbl_cols tb)) then
            if forallb (fun r => length r =? length cols) rows
            then inr (<[t := Table (tbl_cols tb) (tbl_rows tb ++ rows)]> d)
            else inl (WrongArity t)
          else inl (InvalidColumns t)
      end
  | _ => inl NotADataStatement
  end.

End Sink.

Import Sink.

(** ** Python effects: exceptions, logging, the open connection *)

Inductive exn :=
| SinkError (e : sink_error)
| EmptyDataError
| FileNotFoundError
| IsADirectoryError.

Inductive result (A : Type) :=
| Ok (a : A)
| Raise (e : exn).
Arguments Ok {A} a.
Arguments Raise {A} e.

Definition is_ok {A} (r : result A) : bool :=
  match r with Ok _ => true | Raise _ => false end.

Inductive level := LvlDebug | LvlInfo | LvlWarning | LvlError.

(** What a run can observe and change: the committed contents of the
    store, the contents seen inside the open transaction, the connection's
    flags, how many commits were issued, and the log records. *)
Record world := World {
  durable : db;
  working : db;
  autocommit : bool;
  commits : nat;
  cursor_closed : bool;
  conn_closed : bool;
  logs : list (level * string)
}.

Definition set_working (d : db) (w : world) : world :=
  World (if autocommit w then d else durable w) d (autocommit w) (commits w)
        (cursor_closed w) (conn_closed w) (logs w).

Definition M (A : Type) : Type := world -> result A * world.

#[global] Instance M_ret : MRet M := fun A a w => (Ok a, w).
#[global] Instance M_bind : MBind M := fun A B k m w =>
  match m w with
  | (Ok a, w') => k a w'
  | (Raise e, w') => (Raise e, w')
  end.

Definition raise {A} (e : exn) : M A := fun w => (Raise e, w).

(** [try: body finally: fin] *)
Definition try_finally {A} (body : M A) (fin : M unit) : M A := fun w =>
  match body w with
  | (r, w') =>
      match fin w' with
      | (Ok _, w'') => (r, w'')
      | (Raise e, w'') => (Raise e, w'')
      end
  end.

Definition logging (lv : level) (msg : string) : M unit := fun w =>
  (Ok tt, World (durable w) (working w) (autocommit w) (commits w)
                (cursor_closed w) (conn_closed w) (logs w ++ [(lv, msg)])).

Definition execute (s : statement) : M unit := fun w =>
  match exec s (working w) with
  | inr d => (Ok tt, set_working d w)
  | inl e => (Raise (SinkError e), w)
  end.

Definition executemany (s : statement) (rows : list (list string)) : M unit := fun w =>
  match exec_many s rows (working w) with
  | inr d => (Ok tt, set_working d w)
  | inl e => (Raise (SinkError e), w)
  end.

(** [conn.commit()] *)
Definition commit : M unit := fun w =>
  (Ok tt, World (working w) (working w) (autocommit w) (S (commits w))
                (cursor_closed w) (conn_closed w) (logs w)).

(** [pyodbc.connect(conn_string, autocommit=...)] followed by
    [conn.cursor()]: a fresh transaction over the committed contents. *)
Definition connect (ac : bool) : M unit := fun w =>
  (Ok tt, World (durable w) (durable w) ac (commits w) false false (logs w)).

Definition cursor_close : M unit := fun w =>
  (Ok tt, World (durable w) (working w) (autocommit w) (commits w)
                true (conn_closed w) (logs w)).

(** [conn.close()] abandons whatever the transaction has not committed. *)
Definition conn_close : M unit := fun w =>
  (Ok tt, World (durable w) (durable w) (autocommit w) (commits w)
                (cursor_closed w) true (logs w)).

(** ** utils.py *)

Module IngestionConfig.
Definition FOLDERS : list string := ["data"; "logs"].
Definition CHUNK_SIZE : nat := 100 * 100.
Definition FILE_EXTENSION : string := ".csv".
End IngestionConfig.

(** [get_db_connection]: the generator-based context manager around a
    [with] body. *)
Definition get_db_connection {A} (ac : bool) (body : M A) : M unit :=
  connect ac ;;
  try_finally
    (body ;; if negb ac then commit else mret tt)
    (cursor_close ;; conn_close).

Definition ensure_table (table_name : string) (columns : list string)
    (column_types : option (list string)) : M unit :=
  logging LvlInfo ("Recreating table `" +:+ table_name +:+ "`") ;;
  execute (DropTableIfExists table_name) ;;
  let column_types :=
    match column_types with
    | None => repeat "VARCHAR(MAX) NULL" (length columns)
    | Some tys => tys
    end in
  let col_defs := combine columns column_types in
  execute (CreateTable table_name col_defs).

(** ** Strings as Python and the sink treat them *)

Module Str.

Definition chars (s : string) : list ascii := list_ascii_of_string s.
Definition of_chars (l : list ascii) : string := string_of_list_ascii l.

(** ASCII white space, what [str.strip()] removes. *)
Definition is_space (c : ascii) : bool :=
  let n := nat_of_ascii c in
  (n =? 32) || ((9 <=? n) && (n <=? 13)) || ((28 <=? n) && (n <=? 31)).

Fixpoint drop_while (p : ascii -> bool) (l : list ascii) : list ascii :=
  match l with
  | [] => []
  | c :: l' => if p c then drop_while p l' else l
  end.

Definition strip_with (p : ascii -> bool) (s : string) : string :=
  of_chars (rev (drop_while p (rev (drop_while p (chars s))))).

(** [s.strip()] *)
Definition strip : string -> string := strip_with is_space.

(** [LTRIM(RTRIM(s))]: the sink trims blanks only. *)
Definition sql_trim : string -> string :=
  strip_with (fun c => Ascii.eqb c " "%char).

Fixpoint split_chars (sep : ascii) (cur l : list ascii) : list (list ascii) :=
  match l with
  | [] => [rev cur]
  | c :: l' =>
      if Ascii.eqb c sep then rev cur :: split_chars sep [] l'
      else split_chars sep (c :: cur) l'
  end.

(** [s.split(sep)] for a one-character separator. *)
Definition split (sep : ascii) (s : string) : list string :=
  map of_chars (split_chars sep [] (chars s)).

(** [s.replace(" ", "_")] *)
Definition replace_space (s : string) : string :=
  of_chars (map (fun c => if Ascii.eqb c " "%char then "_"%char else c) (chars s)).

Definition lower_char (c : ascii) : ascii :=
  let n := nat_of_ascii c in
  if (65 <=? n) && (n <=? 90) then ascii_of_nat (n + 32) else c.

(** [s.lower()] on ASCII letters. *)
Definition lower (s : string) : string := of_chars (map lower_char (chars s)).

(** [s.endswith(suffix)] *)
Definition endswith (s suffix : string) : bool :=
  let n := String.length s in
  let k := String.length suffix in
  (k <=? n) && String.eqb (substring (n - k) k s) suffix.

(** [s.rfind(".")] *)
Fixpoint rfind_dot (s : string) : option nat :=
  match s with
  | EmptyString => None
  | String c s' =>
      match rfind_dot s' with
      | Some i => Some (S i)
      | None => if Ascii.eqb c "."%char then Some 0 else None
      end
  end.

Definition all_dots (s : string) : bool :=
  forallb (fun c => Ascii.eqb c "."%char) (chars s).

End Str.

(** The column clean-up both loaders apply to a header cell:
    [c.strip().replace(" ", "_")]. *)
Definition sanitize (c : string) : string := Str.replace_space (Str.strip c).

(** ** The files a run reads *)

#[warnings="-register-all"]
Inductive node :=
| File (content : string)
| Dir (entries : list (string * node)).

(** A path is the list of its components, as [pathlib] compares them. *)
Abbreviation path := (list string).

Fixpoint entry (name : string) (es : list (string * node)) : option node :=
  match es with
  | [] => None
  | (n, x) :: es' => if String.eqb n name then Some x else entry name es'
  end.

Fixpoint lookup_path (p : path) (n : node) : option node :=
  match p with
  | [] => Some n
  | c :: p' =>
      match n with
      | File _ => None
      | Dir es =>
          match entry c es with
          | Some x => lookup_path p' x
          | None => None
          end
      end
  end.

Definition path_str (p : path) : string := Sink.join "/" p.

(** [os.path.isdir] *)
Definition isdir (fs : node) (p : path) : bool :=
  match lookup_path p fs with
  | Some (Dir _) => true
  | _ => false
  end.

(** [os.listdir]: the names under a folder, in the order the system
    reports them. *)
Definition listdir (fs : node) (p : path) : list string :=
  match lookup_path p fs with
  | Some (Dir es) => map fst es
  | _ => []
  end.

(** Opening a path for reading. *)
Definition read_file (fs : node) (p : path) : result string :=
  match lookup_path p fs with
  | Some (File c) => Ok c
  | Some (Dir _) => Raise IsADirectoryError
  | None => Raise FileNotFoundError
  end.

(** [os.path.getsize]; a folder reports the size of its own record,
    which is not zero. *)
Definition getsize (fs : node) (p : path) : result nat :=
  match lookup_path p fs with
  | Some (File c) => Ok (String.length c)
  | Some (Dir _) => Ok 4096
  | None => Raise FileNotFoundError
  end.

(** Every path below a folder, files and folders alike, as
    [Path.rglob] walks them. *)
Fixpoint walk (prefix : path) (n : node) : list path :=
  match n with
  | File _ => []
  | Dir es =>
      flat_map (fun e => (prefix ++ [fst e]) :: walk (prefix ++ [fst e]) (snd e)) es
  end.

Definition rglob (fs : node) (base : path) (suffix : string) : list path :=
  match lookup_path base fs with
  | Some n => List.filter (fun p => Str.endswith (List.last p "") suffix) (walk base n)
  | None => []
  end.

(** [Path.__lt__] on POSIX: component lists compared lexicographically. *)
Fixpoint path_leb (p q : path) : bool :=
  match p, q with
  | [], _ => true
  | _ :: _, [] => false
  | a :: p', b :: q' =>
      match String.compare a b with
      | Lt => true
      | Gt => false
      | Eq => path_leb p' q'
      end
  end.

Fixpoint insert_sorted {A} (leb : A -> A -> bool) (x : A) (l : list A) : list A :=
  match l with
  | [] => [x]
  | y :: l' => if leb x y then x :: l else y :: insert_sorted leb x l'
  end.

(** [sorted(...)], a stable sort. *)
Definition sorted {A} (leb : A -> A -> bool) (l : list A) : list A :=
  foldr (insert_sorted leb) [] l.

(** [Path.name] and [Path.stem] *)
Definition name (p : path) : string := List.last p "".

Definition stem (p : path) : string :=
  let nm := name p in
  match Str.rfind_dot nm with
  | Some i => if (0 <? i) && (i <? String.length nm - 1) then substring 0 i nm else nm
  | None => nm
  end.

(** [os.path.splitext(fname)[0]] *)
Definition splitext_root (fname : string) : string :=
  match Str.rfind_dot fname with
  | Some i => if Str.all_dots (substring 0 i fname) then fname else substring 0 i fname
  | None => fname
  end.

(** ** Delimited text, as the two loaders read it *)

Module Csv.

Definition LF : ascii := ascii_of_nat 10.
Definition CR : ascii := ascii_of_nat 13.

Definition drop_cr (l : list ascii) : list ascii :=
  match rev l with
  | c :: r => if Ascii.eqb c CR then rev r else l
  | [] => l
  end.

(** The lines of a text, without their line ends; a final line end
    opens no further line. *)
Definition lines (content : string) : list string :=
  match Str.chars content with
  | [] => []
  | cs =>
      let ls := Str.split_chars LF [] cs in
      let ls := match rev ls with
                | [] :: r => rev r
                | _ => ls
                end in
      map (fun l => Str.of_chars (drop_cr l)) ls
  end.

(** [next(f)] on a file just opened: the first line. *)
Definition first_line (content : string) : string :=
  match lines content with
  | l :: _ => l
  | [] => ""
  end.

(** The records [pandas.read_csv] sees: blank lines are skipped and
    every field is split at the commas; quoting is not modelled. *)
Definition records (content : string) : list (list string) :=
  map (Str.split ","%char)
      (List.filter (fun l => negb (String.eqb l "")) (lines content)).

(** [pd.read_csv(path, nrows=0).columns]: the first record, or
    [EmptyDataError] when the file holds none. *)
Definition read_header (content : string) : result (list string) :=
  match records content with
  | h :: _ => Ok h
  | [] => Raise EmptyDataError
  end.

(** The data rows of [pd.read_csv(path, header=0, names=columns,
    dtype=str, na_filter=False)]: every record after the header one,
    each cell as the text in the file. *)
Definition read_rows (content : string) : list (list string) :=
  match records content with
  | _ :: rs => rs
  | [] => []
  end.

Fixpoint chunks_upto {A} (fuel size : nat) (l : list A) : list (list A) :=
  match fuel with
  | 0 => []
  | S fuel' =>
      match l with
      | [] => []
      | _ => take size l :: chunks_upto fuel' size (drop size l)
      end
  end.

(** [chunksize=size]: consecutive batches of [size] rows, the last one
    possibly shorter. *)
Definition chunks {A} (size : nat) (l : list A) : list (list A) :=
  chunks_upto (length l) size l.

End Csv.

Fixpoint for_each {A} (l : list A) (f : A -> M unit) : M unit :=
  match l with
  | [] => mret tt
  | x :: l' => f x ;; for_each l' f
  end.

Fixpoint for_enumerate {A} (i : nat) (l : list A) (f : nat -> A -> M unit) : M unit :=
  match l with
  | [] => mret tt
  | x :: l' => f i x ;; for_enumerate (S i) l' f
  end.

Definition lift {A} (r : result A) : M A := fun w => (r, w).

(** [list_csv_files]: [sorted(base.rglob("*.csv"))] *)
Definition list_csv_files (fs : node) (data_folder : path) : list path :=
  sorted path_leb (rglob fs data_folder IngestionConfig.FILE_EXTENSION).

(** [ingest_file] of utils.py *)
Definition ingest_file (fs : node) (file_path : path) (table_name : string)
    (chunk_size : nat) (column_types : option (list string)) : M unit :=
  logging LvlInfo ("Ingesting `" +:+ path_str file_path +:+ "` -> `" +:+ table_name +:+ "`") ;;
  content ← lift (read_file fs file_path) ;
  header ← lift (Csv.read_header content) ;
  let columns := map sanitize header in
  ensure_table table_name columns column_types ;;
  let insert_sql := InsertInto table_name columns in
  for_enumerate 0 (Csv.chunks chunk_size (Csv.read_rows content))
    (fun batch_idx rows =>
       executemany insert_sql rows ;;
       logging LvlInfo ("  Batch " +:+ pretty (batch_idx + 1) +:+ ": inserted "
                          +:+ pretty (length rows) +:+ " rows")).

(** [ingest_all] of utils.py, the recursive single-folder flow. *)
Definition ingest_all (fs : node) (data_folder : path)
    (column_types : option (list string)) : M unit :=
  let files := list_csv_files fs data_folder in
  match files with
  | [] => logging LvlWarning ("No CSV files under `" +:+ path_str data_folder +:+ "`")
  | _ =>
      get_db_connection false
        (for_each files (fun file_path =>
           let table_name := stem file_path in
           ingest_file fs file_path table_name IngestionConfig.CHUNK_SIZE column_types)) ;;
      logging LvlInfo "All files ingested successfully."
  end.

(** ** ingestion.py *)

Definition ingest_table_from_csv (fs : node) (folder_path : path) (fname : string)
    (column_types : option (list string)) : M unit :=
  let table_name := splitext_root fname in
  let file_path := folder_path ++ [fname] in
  size ← lift (getsize fs file_path) ;
  if size =? 0 then
    logging LvlWarning ("Skipping empty file: " +:+ path_str file_path)
  else
    content ← lift (read_file fs file_path) ;
    let raw_cols := Str.split ","%char (Str.strip (Csv.first_line content)) in
    let columns := map sanitize raw_cols in
    logging LvlInfo ("Ingesting `" +:+ path_str file_path +:+ "` -> table `" +:+ table_name +:+ "`") ;;
    ensure_table table_name columns column_types ;;
    let insert_sql := InsertInto table_name columns in
    for_each (Csv.chunks IngestionConfig.CHUNK_SIZE (Csv.read_rows content))
      (fun rows =>
         executemany insert_sql rows ;;
         logging LvlInfo ("  -> inserted " +:+ pretty (length rows) +:+ " rows into `"
                            +:+ table_name +:+ "`")).

Definition ingest_folder (fs : node) (folder_path : path) (file_extension : string)
    (column_types : option (list string)) : M unit :=
  if negb (isdir fs folder_path) then
    logging LvlError ("Folder not found: " +:+ path_str folder_path)
  else
    for_each
      (List.filter (fun fname => Str.endswith (Str.lower fname) (Str.lower file_extension))
              (listdir fs folder_path))
      (fun fname => ingest_table_from_csv fs folder_path fname column_types) ;;
    logging LvlInfo ("Finished ingesting all files in `" +:+ path_str folder_path +:+ "`").

(** The ingestion half of [main]: every folder inside one connection
    scope, with the explicit commit after the last folder. *)
Definition main (fs : node) (folders : list path) (file_extension : string)
    (column_types : option (list string)) : M unit :=
  logging LvlInfo "Starting ingestion process" ;;
  get_db_connection false
    (for_each folders (fun folder =>
       ingest_folder fs folder file_extension column_types) ;;
     commit) ;;
  logging LvlInfo "Ingestion complete - now running aggregation".

(** ** The sink's scalar operations used by the aggregation query *)

Module Sql.

(** A nullable value is an [option]; a condition is three-valued and
    [WHERE], [ON] and [CASE WHEN] act on it only when it is true.
    BIGINT values are integers and DECIMAL values exact rationals: the
    sink's overflow checks on sums and its rounding of a quotient to the
    scale of the result type are left out, and text is compared as it
    stands, without a collation. *)
Definition is_true (c : option bool) : bool :=
  match c with Some true => true | _ => false end.

Definition is_not_null {A} (x : option A) : option bool := Some (bool_decide (is_Some x)).

Definition and3 (a b : option bool) : option bool :=
  match a, b with
  | Some false, _ | _, Some false => Some false
  | Some true, Some true => Some true
  | _, _ => None
  end.

Definition lift2 {A B C} (f : A -> B -> C) (x : option A) (y : option B) : option C :=
  match x, y with
  | Some a, Some b => Some (f a b)
  | _, _ => None
  end.

Definition eqZ : option Z -> option Z -> option bool := lift2 Z.eqb.
Definition eqQ : option Q -> option Q -> option bool := lift2 Qeq_bool.
Definition gtQ : option Q -> option Q -> option bool := lift2 (fun a b => negb (Qle_bool a b)).
Definition subQ : option Q -> option Q -> option Q := lift2 Qminus.
Definition mulQ : option Q -> option Q -> option Q := lift2 Qmult.

(** Division raises on a zero divisor. *)
Definition divQ (x y : option Q) : result (option Q) :=
  match y with
  | Some d => if Qeq_bool d 0 then Raise (SinkError DivideByZero)
              else Ok (lift2 Qdiv x y)
  | None => Ok None
  end.

(** A BIGINT read as a number with a fraction. *)
Definition of_bigint (x : option Z) : option Q := inject_Z <$> x.

(** [COALESCE(x, d)] *)
Definition COALESCE {A} (x d : option A) : option A :=
  match x with Some _ => x | None => d end.

(** [SUM] skips NULLs and is NULL when it has nothing to add. *)
Definition SUM {A} (add : A -> A -> A) (l : list (option A)) : option A :=
  fold_left (fun acc x =>
               match acc, x with
               | Some a, Some b => Some (add a b)
               | None, _ => x
               | _, None => acc
               end) l None.

Definition digit (c : ascii) : option Z :=
  let n := nat_of_ascii c in
  if (48 <=? n) && (n <=? 57) then Some (Z.of_nat (n - 48)) else None.

Fixpoint digits_value (acc : Z) (l : list ascii) : option Z :=
  match l with
  | [] => Some acc
  | c :: l' =>
      match digit c with
      | Some d => digits_value (10 * acc + d)%Z l'
      | None => None
      end
  end.

Definition split_sign (l : list ascii) : Z * list ascii :=
  match l with
  | "-"%char :: l' => ((-1)%Z, l')
  | "+"%char :: l' => (1%Z, l')
  | _ => (1%Z, l)
  end.

(** [TRY_CAST(s AS BIGINT)]: blanks around an optionally signed run of
    digits inside the 64-bit range; blank text reads as 0; anything else
    is NULL. *)
Definition try_cast_bigint (s : string) : option Z :=
  match Str.chars (Str.sql_trim s) with
  | [] => Some 0%Z
  | cs =>
      let '(sg, ds) := split_sign cs in
      match ds with
      | [] => None
      | _ =>
          v ← digits_value 0 ds ;
          let z := (sg * v)%Z in
          if ((- 2 ^ 63 <=? z) && (z <? 2 ^ 63))%Z then Some z else None
      end
  end.

(** [TRY_CAST(s AS DECIMAL(18,2))]: an optionally signed decimal
    numeral, rounded half away from zero to two places, with at most
    sixteen digits before the point; anything else is NULL. *)
Definition try_cast_decimal (s : string) : option Q :=
  match Str.chars (Str.sql_trim s) with
  | [] => None
  | cs =>
      let '(sg, body) := split_sign cs in
      match Str.split_chars "."%char [] body with
      | [ip] =>
          match ip with
          | [] => None
          | _ =>
              v ← digits_value 0 ip ;
              if (v <? 10 ^ 16)%Z then Some (sg * v * 100 # 100) else None
          end
      | [ip; fp] =>
          match ip ++ fp with
          | [] => None
          | _ =>
              v ← digits_value 0 ip ;
              _ ← digits_value 0 fp ;
              h ← digits_value 0 (take 2 (fp ++ ["0"; "0"]%char)) ;
              r ← digits_value 0 (take 1 (drop 2 fp)) ;
              let n := (v * 100 + h + (if 5 <=? r then 1 else 0))%Z in
              if (n <? 10 ^ 18)%Z then Some (sg * n # 100) else None
          end
      | _ => None
      end
  end.

Fixpoint group_insert {K A} `{EqDecision K} (k : K) (a : A) (gs : list (K * list A))
  : list (K * list A) :=
  match gs with
  | [] => [(k, [a])]
  | (k', members) :: gs' =>
      if decide (k = k') then (k', members ++ [a]) :: gs'
      else (k', members) :: group_insert k a gs'
  end.

(** [GROUP BY]: the rows split by key, groups in order of first
    appearance. *)
Definition group_by {K A} `{EqDecision K} (key : A -> K) (l : list A) : list (K * list A) :=
  fold_left (fun gs a => group_insert (key a) a gs) l [].

(** [a JOIN b ON c] *)
Definition inner_join {A B} (on : A -> B -> option bool) (l : list A) (r : list B)
  : list (A * B) :=
  flat_map (fun a => map (pair a) (List.filter (fun b => is_true (on a b)) r)) l.

(** [a LEFT JOIN b ON c] *)
Definition left_join {A B} (on : A -> B -> option bool) (l : list A) (r : list B)
  : list (A * option B) :=
  flat_map (fun a =>
              match List.filter (fun b => is_true (on a b)) r with
              | [] => [(a, None)]
              | ms => map (fun b => (a, Some b)) ms
              end) l.

(** [ORDER BY e DESC]: NULL is the lowest value, so it comes last. *)
Definition null_leb (x y : option Q) : bool :=
  match x, y with
  | None, _ => true
  | Some _, None => false
  | Some a, Some b => Qle_bool a b
  end.

Definition order_by_desc {A} (e : A -> option Q) (l : list A) : list A :=
  sorted (fun r1 r2 => null_leb (e r2) (e r1)) l.

End Sql.

(** ** aggregate.py *)

Module AggregateConfig.
Import Sql.

(** The staging columns the query reads; every cell is text. *)
Record vendor_invoice_row := MkVendorInvoice {
  vi_VendorNumber : string;
  vi_Freight : string
}.

Record purchases_row := MkPurchase {
  p_VendorNumber : string;
  p_VendorName : string;
  p_Brand : string;
  p_Description : string;
  p_PurchasePrice : string;
  p_Quantity : string;
  p_Dollars : string
}.

Record purchase_prices_row := MkPurchasePrice {
  pp_Brand : string;
  pp_Price : string;
  pp_Volume : string
}.

Record sales_row := MkSale {
  s_VendorNo : string;
  s_Brand : string;
  s_SalesQuantity : string;
  s_SalesDollars : string;
  s_SalesPrice : string;
  s_ExciseTax : string
}.

Record staging := MkStaging {
  vendor_invoice : list vendor_invoice_row;
  purchases : list purchases_row;
  purchase_prices : list purchase_prices_row;
  sales : list sales_row
}.

Record freight_summary_row := FreightRow {
  fs_VendorNumber : option Z;
  fs_FreightCost : option Q
}.

Record purchase_summary_row := PurchaseRow {
  ps_VendorNumber : option Z;
  ps_VendorName : string;
  ps_Brand : option Z;
  ps_Description : string;
  ps_PurchasePrice : option Q;
  ps_ActualPrice : option Q;
  ps_Volume : option Z;
  ps_TotalPurchaseQuantity : option Z;
  ps_TotalPurchaseDollars : option Q
}.

Record sales_summary_row := SalesRow {
  ss_VendorNumber : option Z;
  ss_Brand : option Z;
  ss_TotalSalesQuantity : option Z;
  ss_TotalSalesDollars : option Q;
  ss_TotalSalesPrice : option Q;
  ss_TotalExciseTax : option Q
}.

(** One row of the final SELECT, the eighteen columns in order. *)
Record summary_row := SummaryRow {
  VendorNumber : option Z;
  VendorName : string;
  Brand : option Z;
  Description : string;
  PurchasePrice : option Q;
  ActualPrice : option Q;
  Volume : option Z;
  TotalPurchaseQuantity : option Z;
  TotalPurchaseDollars : option Q;
  TotalSalesQuantity : option Z;
  TotalSalesDollars : option Q;
  TotalSalesPrice : option Q;
  TotalExciseTax : option Q;
  FreightCost : option Q;
  GrossProfit : option Q;
  ProfitMargin : option Q;
  StockTurnover : option Q;
  SalesToPurchaseRatio : option Q
}.

#[global] Instance Q_eq_dec : EqDecision Q.
Proof. solve_decision. Defined.

(** WITH FreightSummary AS (...) *)
Definition freight_where (r : vendor_invoice_row) : bool :=
  is_true (is_not_null (try_cast_bigint (vi_VendorNumber r))).

Definition FreightSummary (vendor_invoice : list vendor_invoice_row)
  : list freight_summary_row :=
  map (fun g =>
         {| fs_VendorNumber := fst g;
            fs_FreightCost := SUM Qplus (map (fun r => try_cast_decimal (vi_Freight r)) (snd g)) |})
      (group_by (fun r => try_cast_bigint (vi_VendorNumber r))
                (List.filter freight_where vendor_invoice)).

(** PurchaseSummary AS (...) *)
Definition purchase_on (p : purchases_row) (pp : purchase_prices_row) : option bool :=
  Some (String.eqb (p_Brand p) (pp_Brand pp)).

Definition purchase_where (ppp : purchases_row * purchase_prices_row) : bool :=
  let p := fst ppp in
  is_true
    (and3 (and3 (is_not_null (try_cast_bigint (p_VendorNumber p)))
                (is_not_null (try_cast_bigint (p_Brand p))))
          (gtQ (try_cast_decimal (p_PurchasePrice p)) (Some 0%Q))).

Definition purchase_key (ppp : purchases_row * purchase_prices_row)
  : option Z * string * option Z * string * option Q * option Q * string :=
  let p := fst ppp in
  let pp := snd ppp in
  (try_cast_bigint (p_VendorNumber p),
   Str.sql_trim (p_VendorName p),
   try_cast_bigint (p_Brand p),
   p_Description p,
   try_cast_decimal (p_PurchasePrice p),
   try_cast_decimal (pp_Price pp),
   pp_Volume pp).

Definition PurchaseSummary (purchases : list purchases_row)
    (purchase_prices : list purchase_prices_row) : list purchase_summary_row :=
  map (fun g =>
         match fst g with
         | (vendor, vname, brand, descr, price, actual, volume) =>
             {| ps_VendorNumber := vendor;
                ps_VendorName := vname;
                ps_Brand := brand;
                ps_Description := descr;
                ps_PurchasePrice := price;
                ps_ActualPrice := actual;
                ps_Volume := try_cast_bigint volume;
                ps_TotalPurchaseQuantity :=
                  SUM Z.add (map (fun x => try_cast_bigint (p_Quantity (fst x))) (snd g));
                ps_TotalPurchaseDollars :=
                  SUM Qplus (map (fun x => try_cast_decimal (p_Dollars (fst x))) (snd g)) |}
         end)
      (group_by purchase_key
                (List.filter purchase_where (inner_join purchase_on purchases purchase_prices))).

(** SalesSummary AS (...) *)
Definition sales_where (s : sales_row) : bool :=
  is_true (and3 (is_not_null (try_cast_bigint (s_VendorNo s)))
                (is_not_null (try_cast_bigint (s_Brand s)))).

Definition sales_key (s : sales_row) : option Z * option Z :=
  (try_cast_bigint (s_VendorNo s), try_cast_bigint (s_Brand s)).

Definition SalesSummary (sales : list sales_row) : list sales_summary_row :=
  map (fun g =>
         {| ss_VendorNumber := fst (fst g);
            ss_Brand := snd (fst g);
            ss_TotalSalesQuantity :=
              SUM Z.add (map (fun s => try_cast_bigint (s_SalesQuantity s)) (snd g));
            ss_TotalSalesDollars :=
              SUM Qplus (map (fun s => try_cast_decimal (s_SalesDollars s)) (snd g));
            ss_TotalSalesPrice :=
              SUM Qplus (map (fun s => try_cast_decimal (s_SalesPrice s)) (snd g));
            ss_TotalExciseTax :=
              SUM Qplus (map (fun s => try_cast_decimal (s_ExciseTax s)) (snd g)) |})
      (group_by sales_key (List.filter sales_where sales)).

(** The computed columns of the final SELECT.  Each takes the joined
    row's own columns: [sd], [sq] are ss.TotalSalesDollars and
    ss.TotalSalesQuantity (NULL when the left join found no sales row),
    [pd], [pq] are ps.TotalPurchaseDollars and ps.TotalPurchaseQuantity. *)
Definition GrossProfit_expr (sd pd : option Q) : option Q :=
  subQ (COALESCE sd (Some 0%Q)) pd.

Definition ProfitMargin_expr (sd pd : option Q) : result (option Q) :=
  if is_true (eqQ (COALESCE sd (Some 0%Q)) (Some 0%Q)) then Ok (Some 0%Q)
  else
    match divQ (subQ (COALESCE sd (Some 0%Q)) pd) (COALESCE sd (Some 1%Q)) with
    | Ok q => Ok (mulQ q (Some 100%Q))
    | Raise e => Raise e
    end.

(** [* 1.0] turns the BIGINT count into a number with a fraction, so the
    division that follows is not the integer one. *)
Definition StockTurnover_expr (sq pq : option Z) : result (option Q) :=
  if is_true (eqZ pq (Some 0%Z)) then Ok (Some 0%Q)
  else divQ (mulQ (of_bigint (COALESCE sq (Some 0%Z))) (Some 1%Q)) (of_bigint pq).

Definition SalesToPurchaseRatio_expr (sd pd : option Q) : result (option Q) :=
  if is_true (eqQ pd (Some 0%Q)) then Ok (Some 0%Q)
  else divQ (COALESCE sd (Some 0%Q)) pd.

Definition sales_on (ps : purchase_summary_row) (ss : sales_summary_row) : option bool :=
  and3 (eqZ (ps_VendorNumber ps) (ss_VendorNumber ss))
       (eqZ (ps_Brand ps) (ss_Brand ss)).

Definition freight_on (pss : purchase_summary_row * option sales_summary_row)
    (fs : freight_summary_row) : option bool :=
  eqZ (ps_VendorNumber (fst pss)) (fs_VendorNumber fs).

(** A column of the right side of a left join: NULL on an unmatched row. *)
Definition col {R A} (f : R -> option A) (r : option R) : option A := r ≫= f.

Definition select (j : purchase_summary_row * option sales_summary_row
                       * option freight_summary_row) : result summary_row :=
  let ps := fst (fst j) in
  let ss := snd (fst j) in
  let fs := snd j in
  match ProfitMargin_expr (col ss_TotalSalesDollars ss) (ps_TotalPurchaseDollars ps) with
  | Raise e => Raise e
  | Ok pm =>
  match StockTurnover_expr (col ss_TotalSalesQuantity ss) (ps_TotalPurchaseQuantity ps) with
  | Raise e => Raise e
  | Ok st =>
  match SalesToPurchaseRatio_expr (col ss_TotalSalesDollars ss) (ps_TotalPurchaseDollars ps) with
  | Raise e => Raise e
  | Ok sp =>
      Ok {| VendorNumber := ps_VendorNumber ps;
            VendorName := ps_VendorName ps;
            Brand := ps_Brand ps;
            Description := ps_Description ps;
            PurchasePrice := ps_PurchasePrice ps;
            ActualPrice := ps_ActualPrice ps;
            Volume := ps_Volume ps;
            TotalPurchaseQuantity := ps_TotalPurchaseQuantity ps;
            TotalPurchaseDollars := ps_TotalPurchaseDollars ps;
            TotalSalesQuantity := COALESCE (col ss_TotalSalesQuantity ss) (Some 0%Z);
            TotalSalesDollars := COALESCE (col ss_TotalSalesDollars ss) (Some 0%Q);
            TotalSalesPrice := COALESCE (col ss_TotalSalesPrice ss) (Some 0%Q);
            TotalExciseTax := COALESCE (col ss_TotalExciseTax ss) (Some 0%Q);
            FreightCost := COALESCE (col fs_FreightCost fs) (Some 0%Q);
            GrossProfit :=
              GrossProfit_expr (col ss_TotalSalesDollars ss) (ps_TotalPurchaseDollars ps);
            ProfitMargin := pm;
            StockTurnover := st;
            SalesToPurchaseRatio := sp |}
  end end end.

Fixpoint map_result {A B} (f : A -> result B) (l : list A) : result (list B) :=
  match l with
  | [] => Ok []
  | x :: l' =>
      match f x with
      | Raise e => Raise e
      | Ok y =>
          match map_result f l' with
          | Raise e => Raise e
          | Ok ys => Ok (y :: ys)
          end
      end
  end.

(** FROM PurchaseSummary ps LEFT JOIN SalesSummary ss ON ...
    LEFT JOIN FreightSummary fs ON ... ORDER BY ps.TotalPurchaseDollars DESC *)
Definition joined (stg : staging)
  : list (purchase_summary_row * option sales_summary_row * option freight_summary_row) :=
  order_by_desc (fun j => ps_TotalPurchaseDollars (fst (fst j)))
    (left_join freight_on
       (left_join sales_on
          (PurchaseSummary (purchases stg) (purchase_prices stg))
          (SalesSummary (sales stg)))
       (FreightSummary (vendor_invoice stg))).

Definition QUERY (stg : staging) : result (list summary_row) :=
  map_result select (joined stg).

(** [df.fillna(0, inplace=True)] on one row. *)
Definition fill {A} (zero : A) (x : option A) : option A :=
  match x with Some _ => x | None => Some zero end.

Definition fillna0 (r : summary_row) : summary_row :=
  {| VendorNumber := fill 0%Z (VendorNumber r);
     VendorName := VendorName r;
     Brand := fill 0%Z (Brand r);
     Description := Description r;
     PurchasePrice := fill 0%Q (PurchasePrice r);
     ActualPrice := fill 0%Q (ActualPrice r);
     Volume := fill 0%Z (Volume r);
     TotalPurchaseQuantity := fill 0%Z (TotalPurchaseQuantity r);
     TotalPurchaseDollars := fill 0%Q (TotalPurchaseDollars r);
     TotalSalesQuantity := fill 0%Z (TotalSalesQuantity r);
     TotalSalesDollars := fill 0%Q (TotalSalesDollars r);
     TotalSalesPrice := fill 0%Q (TotalSalesPrice r);
     TotalExciseTax := fill 0%Q (TotalExciseTax r);
     FreightCost := fill 0%Q (FreightCost r);
     GrossProfit := fill 0%Q (GrossProfit r);
     ProfitMargin := fill 0%Q (ProfitMargin r);
     StockTurnover := fill 0%Q (StockTurnover r);
     SalesToPurchaseRatio := fill 0%Q (SalesToPurchaseRatio r) |}.

(** Steps 1 and 2 of [aggregate_and_store]: the query result read into
    the frame, then cleaned. *)
Definition cleaned_frame (stg : staging) : result (list summary_row) :=
  match QUERY stg with
  | Ok df => Ok (map fillna0 df)
  | Raise e => Raise e
  end.

(** The query names its staging tables and columns; this is how their
    rows are found in the store.  A missing table or column is an error
    of the sink. *)
Fixpoint index_of (name : string) (cols : list string) : option nat :=
  match cols with
  | [] => None
  | c :: cs => if String.eqb c name then Some 0 else S <$> index_of name cs
  end.

Definition cell (tb : table) (name : string) (row : list string) : option string :=
  i ← index_of name (map fst (tbl_cols tb)) ; row !! i.

Definition read_table {R} (d : db) (t : string) (mk : table -> list string -> option R)
  : result (list R) :=
  match d !! t with
  | None => Raise (SinkError (NoSuchTable t))
  | Some tb =>
      match mapM (mk tb) (tbl_rows tb) with
      | Some rs => Ok rs
      | None => Raise (SinkError (InvalidColumns t))
      end
  end.

Definition staging_of (d : db) : result staging :=
  match read_table d "vendor_invoice"
          (fun tb r => v ← cell tb "VendorNumber" r ; f ← cell tb "Freight" r ;
                       Some (MkVendorInvoice v f)),
        read_table d "purchases"
          (fun tb r => v ← cell tb "VendorNumber" r ; n ← cell tb "VendorName" r ;
                       b ← cell tb "Brand" r ; ds ← cell tb "Description" r ;
                       pr ← cell tb "PurchasePrice" r ; q ← cell tb "Quantity" r ;
                       dl ← cell tb "Dollars" r ;
                       Some (MkPurchase v n b ds pr q dl)),
        read_table d "purchase_prices"
          (fun tb r => b ← cell tb "Brand" r ; pr ← cell tb "Price" r ;
                       vl ← cell tb "Volume" r ;
                       Some (MkPurchasePrice b pr vl)),
        read_table d "sales"
          (fun tb r => v ← cell tb "VendorNo" r ; b ← cell tb "Brand" r ;
                       q ← cell tb "SalesQuantity" r ; dl ← cell tb "SalesDollars" r ;
                       pr ← cell tb "SalesPrice" r ; tx ← cell tb "ExciseTax" r ;
                       Some (MkSale v b q dl pr tx))
  with
  | Ok vi, Ok ps, Ok pps, Ok ss => Ok (MkStaging vi ps pps ss)
  | Raise e, _, _, _ | _, Raise e, _, _ | _, _, Raise e, _ | _, _, _, Raise e => Raise e
  end.

(** [pd.read_sql_query(AggregateConfig.QUERY, conn)] followed by the
    clean-up, against a store. *)
Definition read_and_clean (d : db) : result (list summary_row) :=
  match staging_of d with
  | Ok stg => cleaned_frame stg
  | Raise e => Raise e
  end.

End AggregateConfig.


(** ** Reference definitions the properties are stated against *)

Definition empty_world : world := World ∅ ∅ false 0 false false [].

(** What the expressions of the SELECT come to over the 0-defaulted
    sales figure, NULL propagation included: a purchase total that is
    NULL leaves a difference or an unguarded quotient NULL. *)
Module Nullable.

Definition GrossProfit (salesDollars : Q) (purchaseDollars : option Q) : option Q :=
  (fun p => salesDollars - p)%Q <$> purchaseDollars.

Definition ProfitMargin (salesDollars : Q) (purchaseDollars : option Q) : option Q :=
  if Qeq_bool salesDollars 0 then Some 0%Q
  else (fun p => (salesDollars - p) / salesDollars * 100)%Q <$> purchaseDollars.

Definition StockTurnover (salesQuantity : Z) (purchaseQuantity : option Z) : option Q :=
  match purchaseQuantity with
  | Some pq => if (pq =? 0)%Z then Some 0%Q
               else Some (inject_Z salesQuantity / inject_Z pq)%Q
  | None => None
  end.

Definition SalesToPurchaseRatio (salesDollars : Q) (purchaseDollars : option Q) : option Q :=
  match purchaseDollars with
  | Some p => if Qeq_bool p 0 then Some 0%Q else Some (salesDollars / p)%Q
  | None => None
  end.

End Nullable.

(** The derived figures as section 4.5 of the specification words them:
    formulas of four numbers, each zero guard first. *)
Module Spec.

Definition GrossProfit (salesDollars purchaseDollars : Q) : Q :=
  (salesDollars - purchaseDollars)%Q.

Definition ProfitMargin (salesDollars purchaseDollars : Q) : Q :=
  if Qeq_bool salesDollars 0 then 0%Q
  else ((salesDollars - purchaseDollars) / salesDollars * 100)%Q.

Definition StockTurnover (salesQuantity purchaseQuantity : Z) : Q :=
  if (purchaseQuantity =? 0)%Z then 0%Q
  else (inject_Z salesQuantity / inject_Z purchaseQuantity)%Q.

Definition SalesToPurchaseRatio (salesDollars purchaseDollars : Q) : Q :=
  if Qeq_bool purchaseDollars 0 then 0%Q
  else (salesDollars / purchaseDollars)%Q.

(** ProfitMargin with the denominator written plainly, once as the
    0-defaulted sales figure and once as the joined column itself. *)
Definition ProfitMargin_plain (sd pd : option Q) : result (option Q) :=
  if Sql.is_true (Sql.eqQ (Sql.COALESCE sd (Some 0%Q)) (Some 0%Q)) then Ok (Some 0%Q)
  else
    match Sql.divQ (Sql.subQ (Sql.COALESCE sd (Some 0%Q)) pd) (Sql.COALESCE sd (Some 0%Q)) with
    | Ok q => Ok (Sql.mulQ q (Some 100%Q))
    | Raise e => Raise e
    end.

Definition ProfitMargin_bare (sd pd : option Q) : result (option Q) :=
  if Sql.is_true (Sql.eqQ (Sql.COALESCE sd (Some 0%Q)) (Some 0%Q)) then Ok (Some 0%Q)
  else
    match Sql.divQ (Sql.subQ (Sql.COALESCE sd (Some 0%Q)) pd) sd with
    | Ok q => Ok (Sql.mulQ q (Some 100%Q))
    | Raise e => Raise e
    end.

End Spec.

(** Two nullable numbers that denote the same value. *)
Definition same_number (x y : option Q) : Prop :=
  match x, y with
  | Some a, Some b => (a == b)%Q
  | None, None => True
  | _, _ => False
  end.

(** [x] is not below [y] where NULL is the lowest value. *)
Definition not_below (x y : option Q) : Prop :=
  match y with
  | None => True
  | Some b => match x with Some a => (b <= a)%Q | None => False end
  end.

Import AggregateConfig.

(** A row's computed column is the guarded formula of the row's own
    totals. *)
Definition gross_profit_follows (r : summary_row) : Prop :=
  exists s p, TotalSalesDollars r = Some s /\ TotalPurchaseDollars r = Some p
              /\ same_number (GrossProfit r) (Some (Spec.GrossProfit s p)).

Definition profit_margin_follows (r : summary_row) : Prop :=
  exists s p, TotalSalesDollars r = Some s /\ TotalPurchaseDollars r = Some p
              /\ same_number (ProfitMargin r) (Some (Spec.ProfitMargin s p)).

Definition stock_turnover_follows (r : summary_row) : Prop :=
  exists sq pq, TotalSalesQuantity r = Some sq /\ TotalPurchaseQuantity r = Some pq
                /\ same_number (StockTurnover r) (Some (Spec.StockTurnover sq pq)).

Definition sales_to_purchase_ratio_follows (r : summary_row) : Prop :=
  exists s p, TotalSalesDollars r = Some s /\ TotalPurchaseDollars r = Some p
              /\ same_number (SalesToPurchaseRatio r) (Some (Spec.SalesToPurchaseRatio s p)).

(** The nine columns a result row takes over from its purchase row. *)
Definition purchase_part (r : summary_row) : purchase_summary_row :=
  {| ps_VendorNumber := VendorNumber r;
     ps_VendorName := VendorName r;
     ps_Brand := Brand r;
     ps_Description := Description r;
     ps_PurchasePrice := PurchasePrice r;
     ps_ActualPrice := ActualPrice r;
     ps_Volume := Volume r;
     ps_TotalPurchaseQuantity := TotalPurchaseQuantity r;
     ps_TotalPurchaseDollars := TotalPurchaseDollars r |}.

Definition has_sales (stg : staging) (r : summary_row) : Prop :=
  exists ss, In ss (SalesSummary (sales stg))
             /\ ss_VendorNumber ss = VendorNumber r /\ ss_Brand ss = Brand r.

Definition has_freight (stg : staging) (r : summary_row) : Prop :=
  exists fs, In fs (FreightSummary (vendor_invoice stg))
             /\ fs_VendorNumber fs = VendorNumber r.

(** A staging row whose key the aggregates cannot use. *)
Definition bad_freight_key (r : vendor_invoice_row) : Prop :=
  Sql.try_cast_bigint (vi_VendorNumber r) = None.

Definition bad_sales_key (s : sales_row) : Prop :=
  Sql.try_cast_bigint (s_VendorNo s) = None \/ Sql.try_cast_bigint (s_Brand s) = None.

Definition bad_purchase_key (p : purchases_row) : Prop :=
  Sql.try_cast_bigint (p_VendorNumber p) = None
  \/ Sql.try_cast_bigint (p_Brand p) = None
  \/ (forall q, Sql.try_cast_decimal (p_PurchasePrice p) = Some q -> (q <= 0)%Q).

(** [stg'] is [stg] with one such row put somewhere into one of the
    three staging tables the aggregates group. *)
Inductive bad_row_added : staging -> staging -> Prop :=
| bad_freight l1 r l2 ps pps ss :
    bad_freight_key r ->
    bad_row_added (MkStaging (l1 ++ l2) ps pps ss) (MkStaging (l1 ++ r :: l2) ps pps ss)
| bad_purchase vi l1 p l2 pps ss :
    bad_purchase_key p ->
    bad_row_added (MkStaging vi (l1 ++ l2) pps ss) (MkStaging vi (l1 ++ p :: l2) pps ss)
| bad_sale vi ps pps l1 s l2 :
    bad_sales_key s ->
    bad_row_added (MkStaging vi ps pps (l1 ++ l2)) (MkStaging vi ps pps (l1 ++ s :: l2)).


(** What the final SELECT makes of one joined row. *)
Definition selected (j : purchase_summary_row * option sales_summary_row
                          * option freight_summary_row) (r : summary_row) : Prop :=
  let ps := fst (fst j) in
  let ss := snd (fst j) in
  let fs := snd j in
  purchase_part r = ps
  /\ TotalSalesQuantity r = Some (default 0%Z (col ss_TotalSalesQuantity ss))
  /\ TotalSalesDollars r = Some (default 0%Q (col ss_TotalSalesDollars ss))
  /\ TotalSalesPrice r = Some (default 0%Q (col ss_TotalSalesPrice ss))
  /\ TotalExciseTax r = Some (default 0%Q (col ss_TotalExciseTax ss))
  /\ FreightCost r = Some (default 0%Q (col fs_FreightCost fs))
  /\ GrossProfit r
     = Nullable.GrossProfit (default 0%Q (col ss_TotalSalesDollars ss)) (ps_TotalPurchaseDollars ps)
  /\ ProfitMargin r
     = Nullable.ProfitMargin (default 0%Q (col ss_TotalSalesDollars ss)) (ps_TotalPurchaseDollars ps)
  /\ same_number (StockTurnover r)
       (Nullable.StockTurnover (default 0%Z (col ss_TotalSalesQuantity ss))
                           (ps_TotalPurchaseQuantity ps))
  /\ SalesToPurchaseRatio r
     = Nullable.SalesToPurchaseRatio (default 0%Q (col ss_TotalSalesDollars ss))
                                 (ps_TotalPurchaseDollars ps).


(** ** What a load does to the open transaction, read off the files alone *)

(** An effect is a sequence of table assignments: [(t, Some x)] leaves
    table [t] holding [x], [(t, None)] leaves no table [t]. *)
Abbreviation effect := (list (string * option table)).

Definition set_table (t : string) (x : option table) (d : db) : db :=
  match x with
  | Some tb => <[t := tb]> d
  | None => delete t d
  end.

Definition apply_all (us : effect) (d : db) : db :=
  fold_left (fun d u => set_table (fst u) (snd u) d) us d.

(** The last assignment an effect makes to table [k], if any. *)
Fixpoint assigned (k : string) (us : effect) : option (option table) :=
  match us with
  | [] => None
  | u :: us' =>
      match assigned k us' with
      | Some y => Some y
      | None => if decide (fst u = k) then Some (snd u) else None
      end
  end.

Definition column_defs (columns : list string) (column_types : option (list string))
  : list (string * string) :=
  combine columns
          match column_types with
          | None => repeat "VARCHAR(MAX) NULL" (length columns)
          | Some tys => tys
          end.

Definition plan_ensure_table (t : string) (columns : list string)
    (column_types : option (list string)) : result unit * effect :=
  let defs := column_defs columns column_types in
  match defs with
  | [] => (Raise (SinkError (NoColumns t)), [(t, None)])
  | _ =>
      if distinct (map fst defs) then (Ok tt, [(t, Some (Table defs []))])
      else (Raise (SinkError (DuplicateColumn t)), [(t, None)])
  end.

(** The rows the batches get into the table before one is refused. *)
Fixpoint plan_inserts (t : string) (defs : list (string * string)) (cols : list string)
    (chs : list (list (list string))) : result unit * list (list string) :=
  match chs with
  | [] => (Ok tt, [])
  | rows :: chs' =>
      if bool_decide (cols = map fst defs) then
        if forallb (fun r => length r =? length cols) rows then
          (fst (plan_inserts t defs cols chs'), rows ++ snd (plan_inserts t defs cols chs'))
        else (Raise (SinkError (WrongArity t)), [])
      else (Raise (SinkError (InvalidColumns t)), [])
  end.

Definition plan_load (t : string) (columns : list string)
    (column_types : option (list string)) (chs : list (list (list string)))
  : result unit * effect :=
  match plan_ensure_table t columns column_types with
  | (Raise e, us) => (Raise e, us)
  | (Ok _, _) =>
      let defs := column_defs columns column_types in
      (fst (plan_inserts t defs columns chs),
       [(t, Some (Table defs (snd (plan_inserts t defs columns chs))))])
  end.

Definition plan_ingest_file (fs : node) (file_path : path) (table_name : string)
    (chunk_size : nat) (column_types : option (list string)) : result unit * effect :=
  match read_file fs file_path with
  | Raise e => (Raise e, [])
  | Ok content =>
      match Csv.read_header content with
      | Raise e => (Raise e, [])
      | Ok header =>
          plan_load table_name (map sanitize header) column_types
                    (Csv.chunks chunk_size (Csv.read_rows content))
      end
  end.

Definition plan_ingest_table_from_csv (fs : node) (folder_path : path) (fname : string)
    (column_types : option (list string)) : result unit * effect :=
  match getsize fs (folder_path ++ [fname]) with
  | Raise e => (Raise e, [])
  | Ok size =>
      if size =? 0 then (Ok tt, [])
      else
        match read_file fs (folder_path ++ [fname]) with
        | Raise e => (Raise e, [])
        | Ok content =>
            plan_load (splitext_root fname)
                      (map sanitize (Str.split ","%char (Str.strip (Csv.first_line content))))
                      column_types
                      (Csv.chunks IngestionConfig.CHUNK_SIZE (Csv.read_rows content))
        end
  end.

(** Plans run one after the other, up to the first that raises. *)
Fixpoint plan_seq (ps : list (result unit * effect)) : result unit * effect :=
  match ps with
  | [] => (Ok tt, [])
  | (Ok _, us) :: ps' => (fst (plan_seq ps'), us ++ snd (plan_seq ps'))
  | (Raise e, us) :: _ => (Raise e, us)
  end.

Definition plan_ingest_folder (fs : node) (folder_path : path) (file_extension : string)
    (column_types : option (list string)) : result unit * effect :=
  if negb (isdir fs folder_path) then (Ok tt, [])
  else
    plan_seq
      (map (fun fname => plan_ingest_table_from_csv fs folder_path fname column_types)
           (List.filter
              (fun fname => Str.endswith (Str.lower fname) (Str.lower file_extension))
              (listdir fs folder_path))).

Definition plan_main (fs : node) (folders : list path) (file_extension : string)
    (column_types : option (list string)) : result unit * effect :=
  plan_seq (map (fun folder => plan_ingest_folder fs folder file_extension column_types)
                folders).

Definition plan_ingest_all (fs : node) (data_folder : path)
    (column_types : option (list string)) : result unit * effect :=
  plan_seq (map (fun file_path =>
                   plan_ingest_file fs file_path (stem file_path)
                                    IngestionConfig.CHUNK_SIZE column_types)
                (list_csv_files fs data_folder)).

(** The world after a call that left [d] in the open transaction and
    wrote the records [lg]. *)
Definition with_db (d : db) (lg : list (level * string)) (w : world) : world :=
  World (durable w) d (autocommit w) (commits w) (cursor_closed w) (conn_closed w)
        (logs w ++ lg).

(** A call, run inside a transaction, returns [r] and has the effect
    [us], whatever the store holds. *)
Definition tracks {A} (m : M A) (r : result A) (us : effect) : Prop :=
  forall w, autocommit w = false ->
    exists lg, m w = (r, with_db (apply_all us (working w)) lg w).

(** The table a file loads into when its load succeeds (utils.py). *)
Definition file_table (content : string) (column_types : option (list string)) : table :=
  match Csv.read_header content with
  | Ok header => Table (column_defs (map sanitize header) column_types) (Csv.read_rows content)
  | Raise _ => Table [] []
  end.

Definition path_le (p q : path) : Prop := path_leb p q = true.


(** ** Small file trees used as examples *)

Definition two_stock_files : node :=
  Dir [("data",
        Dir [("east", Dir [("stock.csv", File "sku,on hand
A-1,10
")]);
             ("west", Dir [("stock.csv", File "sku,on hand
B-7,3
B-8,4
")])])].

Definition one_empty_file : node :=
  Dir [("data", Dir [("empty.csv", File "")])].

(** The worked example of the specification: one purchase of five
    widgets for 50.00 and one sale of four for 80.00. *)
Definition widget_files : node :=
  Dir [("data",
        Dir [("purchases.csv", File "VendorNumber,VendorName,Brand,Description,PurchasePrice,Quantity,Dollars
1, Acme ,100,Widget,10.00,5,50.00
");
             ("purchase_prices.csv", File "Brand,Price,Volume
100,12.99,750
");
             ("sales.csv", File "VendorNo,Brand,SalesQuantity,SalesDollars,SalesPrice,ExciseTax
1,100,4,80.00,20.00,0.79
");
             ("vendor_invoice.csv", File "VendorNumber,Freight
1,3.25
")]);
       ("logs", Dir [("ingestion.log", File "started")])].


(** The character map of [replace(" ", "_")]. *)
Definition underscore_blank (c : ascii) : ascii :=
  if Ascii.eqb c " "%char then "_"%char else c.


(** Whether the batches of a file get into the table, read off the rows
    alone. *)
Definition rows_outcome (t : string) (defs : list (string * string)) (cols : list string)
    (rows : list (list string)) : result unit :=
  match rows with
  | [] => Ok tt
  | _ =>
      if bool_decide (cols = map fst defs) then
        if forallb (fun r => length r =? length cols) rows then Ok tt
        else Raise (SinkError (WrongArity t))
      else Raise (SinkError (InvalidColumns t))
  end.


(** ** aggregate_and_store *)

(** Code with a loop that need not end: a run gives nothing when the
    fuel for the loop runs out. *)
Definition P (A : Type) : Type := world -> option (result A * world).

#[global] Instance P_ret : MRet P := fun A a w => Some (Ok a, w).
#[global] Instance P_bind : MBind P := fun A B k m w =>
  match m w with
  | Some (Ok a, w') => k a w'
  | Some (Raise e, w') => Some (Raise e, w')
  | None => None
  end.

(** A call that always ends, inside such code. *)
Definition ran {A} (m : M A) : P A := fun w => Some (m w).

Definition try_finally_P {A} (body : P A) (fin : M unit) : P A := fun w =>
  match body w with
  | Some (r, w') =>
      match fin w' with
      | (Ok _, w'') => Some (r, w'')
      | (Raise e, w'') => Some (Raise e, w'')
      end
  | None => None
  end.

(** [with get_db_connection(...) as cursor:] around such a body. *)
Definition with_db_connection {A} (ac : bool) (body : P A) : P unit :=
  ran (connect ac) ;;
  try_finally_P
    (body ;; if negb ac then ran commit else mret tt)
    (cursor_close ;; conn_close).

(** [try: body except Exception: logging.exception(msg); raise] *)
Definition try_except_logged {A} (body : P A) (msg : string) : P A := fun w =>
  match body w with
  | Some (Raise e, w') => Some (Raise e, snd (logging LvlError msg w'))
  | other => other
  end.

Module Store.
Import AggregateConfig.

(** A cell of the frame as Python holds it. *)
Inductive value :=
| VInt (z : Z)
| VNum (q : Q)
| VText (s : string)
| VNone.

Definition int_value (x : option Z) : value :=
  match x with Some z => VInt z | None => VNone end.

Definition num_value (x : option Q) : value :=
  match x with Some q => VNum q | None => VNone end.

(** [batch.values.tolist()] on one row: the eighteen cells in column
    order. *)
Definition values (r : summary_row) : list value :=
  [int_value (VendorNumber r); VText (VendorName r); int_value (Brand r);
   VText (Description r); num_value (PurchasePrice r); num_value (ActualPrice r);
   int_value (Volume r); int_value (TotalPurchaseQuantity r);
   num_value (TotalPurchaseDollars r); int_value (TotalSalesQuantity r);
   num_value (TotalSalesDollars r); num_value (TotalSalesPrice r);
   num_value (TotalExciseTax r); num_value (FreightCost r); num_value (GrossProfit r);
   num_value (ProfitMargin r); num_value (StockTurnover r);
   num_value (SalesToPurchaseRatio r)].

Definition columns : list string :=
  ["VendorNumber"; "VendorName"; "Brand"; "Description"; "PurchasePrice";
   "ActualPrice"; "Volume"; "TotalPurchaseQuantity"; "TotalPurchaseDollars";
   "TotalSalesQuantity"; "TotalSalesDollars"; "TotalSalesPrice"; "TotalExciseTax";
   "FreightCost"; "GrossProfit"; "ProfitMargin"; "StockTurnover"; "SalesToPurchaseRatio"].

Definition types : list string :=
  ["BIGINT NULL"; "VARCHAR(MAX) NULL"; "BIGINT NULL"; "VARCHAR(MAX) NULL";
   "DECIMAL(18,2) NULL"; "DECIMAL(18,2) NULL"; "BIGINT NULL";
   "BIGINT NULL"; "DECIMAL(18,2) NULL"; "BIGINT NULL";
   "DECIMAL(18,2) NULL"; "DECIMAL(18,2) NULL"; "DECIMAL(18,2) NULL";
   "DECIMAL(18,2) NULL"; "DECIMAL(18,2) NULL"; "DECIMAL(18,2) NULL";
   "DECIMAL(18,2) NULL"; "DECIMAL(18,2) NULL"].

(** [pd.read_sql_query(AggregateConfig.QUERY, conn)]: the query against
    what the connection sees. *)
Definition read_sql_query : M (list summary_row) := fun w =>
  match staging_of (working w) with
  | Ok stg => (QUERY stg, w)
  | Raise e => (Raise e, w)
  end.

Section Stored.

(** How the driver writes a cell into the store is left open. *)
Variable show : value -> string.

Definition parameters (batch : list summary_row) : list (list string) :=
  map (fun r => map show (values r)) batch.

(** [while inserted < total_rows: ...], one unit of fuel per batch. *)
Fixpoint insert_while (fuel : nat) (insert_sql : statement) (df : list summary_row)
    (batch_size inserted : nat) {struct fuel} : P unit :=
  if inserted <? length df then
    match fuel with
    | 0 => fun _ => None
    | S fuel' =>
        let batch := take batch_size (drop inserted df) in
        ran (executemany insert_sql (parameters batch)) ;;
        insert_while fuel' insert_sql df batch_size (inserted + length batch)
    end
  else mret tt.

(** [aggregate_and_store]; [elapsed] is the clock difference as the last
    log line prints it, and the logging set-up is left out. *)
Definition aggregate_and_store (fuel : nat) (target_table : string) (batch_size : nat)
    (elapsed : string) : P unit :=
  ran (logging LvlInfo "Starting aggregation and storage...") ;;
  try_except_logged
    (with_db_connection false
       (ran (logging LvlInfo "Executing aggregation query") ;;
        df ← ran read_sql_query ;
        ran (logging LvlInfo "Cleaning DataFrame") ;;
        let df := map fillna0 df in
        ran (logging LvlInfo ("Recreating target table `" +:+ target_table +:+ "`")) ;;
        ran (ensure_table target_table columns (Some types)) ;;
        let insert_sql := InsertInto target_table columns in
        let total_rows := length df in
        ran (logging LvlInfo ("Inserting " +:+ pretty total_rows +:+ " rows in batches of "
                                +:+ pretty batch_size)) ;;
        insert_while fuel insert_sql df batch_size 0 ;;
        ran commit ;;
        ran (logging LvlInfo ("Inserted " +:+ pretty total_rows +:+ " rows into `"
                                +:+ target_table +:+ "` in " +:+ elapsed +:+ "s"))))
    "Failed during aggregation/storage".

End Stored.

(** The table the summary is stored as. *)
Definition summary_table (show : value -> string) (df : list summary_row) : table :=
  Table (combine columns types) (parameters show df).

End Store.


(** One way to write cells, for the examples. *)
Definition show_plain (v : Store.value) : string :=
  match v with
  | Store.VInt z => pretty z
  | Store.VNum q => pretty (Qnum q) +:+ "/" +:+ pretty (Zpos (Qden q))
  | Store.VText s => s
  | Store.VNone => "None"
  end.

Definition staging_names : list string :=
  ["vendor_invoice"; "purchases"; "purchase_prices"; "sales"].


(** The store after the worked example was ingested, and its cleaned
    frame. *)
Definition widget_store : world :=
  snd (main widget_files [["data"]; ["logs"]] ".csv" None empty_world).

Definition widget_frame : list summary_row :=
  match read_and_clean (durable widget_store) with
  | Ok df => df
  | Raise _ => []
  end.


(** ** The entries of the multi-folder run *)

(** The entries the multi-folder run hands to [ingest_table_from_csv],
    in the order it does: for every listed folder that is a directory,
    the names [os.listdir] reports that pass the extension test. *)
Definition visited (fs : node) (folders : list path) (file_extension : string)
  : list (path * string) :=
  flat_map
    (fun folder =>
       if negb (isdir fs folder) then []
       else map (pair folder)
                (List.filter
                   (fun fname => Str.endswith (Str.lower fname) (Str.lower file_extension))
                   (listdir fs folder)))
    folders.

(** The table an entry loads into when its load succeeds
    (ingestion.py): the columns come from the first line of the file. *)
Definition entry_table (content : string) (column_types : option (list string)) : table :=
  Table (column_defs
           (map sanitize (Str.split ","%char (Str.strip (Csv.first_line content))))
           column_types)
        (Csv.read_rows content).

Definition stock_then_empty : node :=
  Dir [("data",
        Dir [("east", Dir [("stock.csv", File "sku,on hand
A-1,10
")]);
             ("west", Dir [("stock.csv", File ""); ("notes.txt", File "n/a")])])].


Definition upper_case_entry : node :=
  Dir [("data", Dir [("Stock.CSV", File "sku,on hand
A-1,10
");
                     ("readme.md", File "stock counts")])].


(** ** Text as the sink compares it *)

(** The sink's [=] on VARCHAR values pads the shorter text with blanks
    and follows the collation of the database.  Two values whose
    [compared_text] differs are unequal under the binary collations and
    under the case-insensitive, accent-sensitive ones a database has by
    default: blanks at the end are left out and ASCII letters are folded
    to lower case. *)
Definition compared_text (s : string) : string :=
  Str.lower
    (Str.of_chars
       (rev (Str.drop_while (fun c => Ascii.eqb c " "%char) (rev (Str.chars s))))).


(** * Properties *)

(** ** Connection scope *)

(** C9. A scope opened with autocommit disabled issues its commit exactly
    when the body returns normally: after a normal return the commit
    counter is one above the body's and the committed contents are the
    body's working contents, after an exception the counter and the
    committed contents are the body's and the exception propagates; the
    cursor and the connection are closed either way. *)
Theorem get_db_connection_commits_iff_body_ok :
  forall (A : Type) (body : M A) (w : world),
    let rb := fst (body (snd (connect false w))) in
    let wb := snd (body (snd (connect false w))) in
    let r' := fst (get_db_connection false body w) in
    let w' := snd (get_db_connection false body w) in
    match rb with
    | Ok _ => commits w' = S (commits wb) /\ durable w' = working wb /\ r' = Ok tt
    | Raise e => commits w' = commits wb /\ durable w' = durable wb /\ r' = Raise e
    end
    /\ cursor_closed w' = true /\ conn_closed w' = true.
Proof.
  intros A body w. cbv zeta.
  unfold get_db_connection, try_finally, mbind, M_bind. simpl.
  destruct (body _) as [[a | e] wb]; simpl; repeat split; reflexivity.
Qed.

(** ** Table provisioning *)

(** C1, as stated, fails: two columns against one type is accepted, the
    table is dropped and created with the first column only. *)
Lemma ensure_table_mismatch_is_truncated :
  length ["a"; "b"] <> length ["INT NULL"]
  /\ fst (ensure_table "t" ["a"; "b"] (Some ["INT NULL"]) empty_world) = Ok tt
  /\ working (snd (ensure_table "t" ["a"; "b"] (Some ["INT NULL"]) empty_world)) !! "t"
     = Some (Table [("a", "INT NULL")] []).
Proof. split; [discriminate | split; vm_compute; reflexivity]. Qed.

Lemma exec_create_after_drop t defs (d : db) :
  defs <> [] -> NoDup (map fst defs) ->
  exec (CreateTable t defs) (delete t d) = inr (<[t := Table defs []]> d).
Proof.
  intros Hne Hnd. unfold exec. rewrite lookup_delete_eq.
  destruct defs as [| x defs']; [congruence |].
  unfold distinct. rewrite bool_decide_eq_true_2 by assumption.
  f_equal. apply insert_delete_eq.
Qed.

(** C1, amended. [ensure_table] makes no length check: with lists of
    different lengths it pairs them positionally up to the shorter one,
    and when that prefix is not empty and names no column twice the call
    succeeds and leaves a fresh empty table with exactly those columns. *)
Theorem ensure_table_zips_to_shorter :
  forall (t : string) (cols tys : list string) (w : world),
    length cols <> length tys ->
    combine cols tys <> [] ->
    NoDup (map fst (combine cols tys)) ->
    fst (ensure_table t cols (Some tys) w) = Ok tt
    /\ working (snd (ensure_table t cols (Some tys) w))
       = <[t := Table (combine cols tys) []]> (working w)
    /\ length (combine cols tys) = Nat.min (length cols) (length tys).
Proof.
  intros t cols tys w _ Hne Hnd.
  unfold ensure_table, mbind, M_bind, logging, execute. cbn -[exec].
  change (exec (DropTableIfExists t) (working w)) with (@inr sink_error _ (delete t (working w))).
  cbn -[exec].
  rewrite (exec_create_after_drop t _ _ Hne Hnd). cbn.
  repeat split. apply length_combine.
Qed.

Lemma ensure_table_zips_to_shorter_witness :
  fst (ensure_table "t" ["a"; "b"] (Some ["INT NULL"]) empty_world) = Ok tt
  /\ working (snd (ensure_table "t" ["a"; "b"] (Some ["INT NULL"]) empty_world))
     = <[ "t" := Table (combine ["a"; "b"] ["INT NULL"]) []]> (working empty_world)
  /\ length (combine ["a"; "b"] ["INT NULL"]) = Nat.min (length ["a"; "b"]) (length ["INT NULL"]).
Proof.
  apply (ensure_table_zips_to_shorter "t" ["a"; "b"] ["INT NULL"] empty_world).
  - simpl. lia.
  - simpl. discriminate.
  - simpl. apply NoDup_cons; split; [apply not_elem_of_nil | apply NoDup_nil; exact I].
Defined.

(** ** The computed columns *)

Section Computed.
Import Sql.

Ltac qsimpl := cbn -[Qeq_bool Qle_bool Qdiv Qminus Qmult Qplus inject_Z Z.eqb].

Lemma same_number_refl x : same_number x x.
Proof. destruct x; simpl; [reflexivity | exact I]. Qed.

Lemma inject_Z_eq0 n : Qeq_bool (inject_Z n) 0 = (n =? 0)%Z.
Proof. unfold Qeq_bool, inject_Z. simpl. rewrite Z.mul_1_r. reflexivity. Qed.

Lemma GrossProfit_expr_spec sd pd :
  GrossProfit_expr sd pd = Nullable.GrossProfit (default 0%Q sd) pd.
Proof. destruct sd, pd; reflexivity. Qed.

Lemma ProfitMargin_expr_spec sd pd :
  ProfitMargin_expr sd pd = Ok (Nullable.ProfitMargin (default 0%Q sd) pd).
Proof.
  unfold ProfitMargin_expr, Nullable.ProfitMargin, divQ.
  destruct sd as [s |]; qsimpl; [| reflexivity].
  destruct (Qeq_bool s 0) eqn:E; qsimpl; [reflexivity |].
  destruct pd; reflexivity.
Qed.

Lemma StockTurnover_expr_spec sq pq :
  exists v, StockTurnover_expr sq pq = Ok v
            /\ same_number v (Nullable.StockTurnover (default 0%Z sq) pq).
Proof.
  unfold StockTurnover_expr, Nullable.StockTurnover, divQ.
  destruct pq as [n |]; qsimpl.
  - destruct (n =? 0)%Z eqn:E; qsimpl.
    + eexists; split; reflexivity.
    + rewrite inject_Z_eq0, E.
      eexists; split; [reflexivity |].
      destruct sq as [q |]; qsimpl; rewrite Qmult_1_r; reflexivity.
  - eexists; split; [reflexivity | exact I].
Qed.

Lemma SalesToPurchaseRatio_expr_spec sd pd :
  SalesToPurchaseRatio_expr sd pd = Ok (Nullable.SalesToPurchaseRatio (default 0%Q sd) pd).
Proof.
  unfold SalesToPurchaseRatio_expr, Nullable.SalesToPurchaseRatio, divQ.
  destruct pd as [p |]; qsimpl; [| reflexivity].
  destruct (Qeq_bool p 0) eqn:E; qsimpl; [reflexivity |].
  destruct sd; reflexivity.
Qed.

Lemma COALESCE_default {A} (x : option A) (d : A) :
  COALESCE x (Some d) = Some (default d x).
Proof. destruct x; reflexivity. Qed.

Lemma select_selected j : exists r, select j = Ok r /\ selected j r.
Proof.
  destruct j as [[ps ss] fs]. unfold select. cbn [fst snd].
  rewrite ProfitMargin_expr_spec, SalesToPurchaseRatio_expr_spec.
  destruct (StockTurnover_expr_spec (col ss_TotalSalesQuantity ss)
              (ps_TotalPurchaseQuantity ps)) as (st & -> & Hst).
  eexists; split; [reflexivity |].
  unfold selected. cbn [fst snd VendorNumber TotalSalesQuantity TotalSalesDollars
    TotalSalesPrice TotalExciseTax FreightCost GrossProfit ProfitMargin StockTurnover
    SalesToPurchaseRatio].
  rewrite !COALESCE_default, GrossProfit_expr_spec.
  repeat split; try reflexivity; try assumption.
  destruct ps; reflexivity.
Qed.

Lemma map_result_Forall2 {A B} (f : A -> result B) (P : A -> B -> Prop) (l : list A) :
  (forall x, exists y, f x = Ok y /\ P x y) ->
  exists ys, map_result f l = Ok ys /\ Forall2 P l ys.
Proof.
  intros Hf. induction l as [| x l IH]; simpl.
  - exists []. split; [reflexivity | constructor].
  - destruct (Hf x) as (y & -> & Hy). destruct IH as (ys & -> & Hys).
    exists (y :: ys). split; [reflexivity | constructor; assumption].
Qed.

Lemma QUERY_selected stg :
  exists df, QUERY stg = Ok df /\ Forall2 selected (joined stg) df.
Proof. apply map_result_Forall2, select_selected. Qed.

End Computed.

Lemma Forall2_Forall_r {A B} (P : A -> B -> Prop) (Q : B -> Prop) l l' :
  Forall2 P l l' -> (forall x y, P x y -> Q y) -> Forall Q l'.
Proof.
  intros H HPQ. induction H; constructor; eauto.
Qed.

Lemma purchase_part_dollars r ps :
  purchase_part r = ps ->
  TotalPurchaseDollars r = ps_TotalPurchaseDollars ps
  /\ TotalPurchaseQuantity r = ps_TotalPurchaseQuantity ps.
Proof. intros <-. split; reflexivity. Qed.

Lemma fill_Some {A} (zero x : A) : fill zero (Some x) = Some x.
Proof. reflexivity. Qed.

Lemma Qminus_0_r (s : Q) : (s - 0 == s)%Q.
Proof. unfold Qminus. change (- 0)%Q with 0%Q. apply Qplus_0_r. Qed.

Lemma full_margin (s : Q) : ~ (s == 0)%Q -> ((s - 0) / s * 100 == 100)%Q.
Proof. intros Hs. rewrite Qminus_0_r. field. exact Hs. Qed.

(** What the four columns of a row hold, given what the expressions of
    the SELECT made of its totals. *)
Lemma row_columns (r : summary_row) (s : Q) (sq : Z) :
  TotalSalesDollars r = Some s ->
  TotalSalesQuantity r = Some sq ->
  GrossProfit r = Nullable.GrossProfit s (TotalPurchaseDollars r) ->
  ProfitMargin r = Nullable.ProfitMargin s (TotalPurchaseDollars r) ->
  same_number (StockTurnover r) (Nullable.StockTurnover sq (TotalPurchaseQuantity r)) ->
  SalesToPurchaseRatio r = Nullable.SalesToPurchaseRatio s (TotalPurchaseDollars r) ->
  (TotalPurchaseDollars r <> None ->
     gross_profit_follows r /\ profit_margin_follows r
     /\ sales_to_purchase_ratio_follows r
     /\ GrossProfit (fillna0 r) = GrossProfit r
     /\ ProfitMargin (fillna0 r) = ProfitMargin r
     /\ SalesToPurchaseRatio (fillna0 r) = SalesToPurchaseRatio r)
  /\ (TotalPurchaseQuantity r <> None ->
        stock_turnover_follows r /\ StockTurnover (fillna0 r) = StockTurnover r)
  /\ (TotalPurchaseDollars r = None ->
        GrossProfit r = None /\ SalesToPurchaseRatio r = None)
  /\ (TotalPurchaseQuantity r = None -> StockTurnover r = None)
  /\ stock_turnover_follows (fillna0 r)
  /\ sales_to_purchase_ratio_follows (fillna0 r)
  /\ (TotalPurchaseDollars r <> None ->
        gross_profit_follows (fillna0 r) /\ profit_margin_follows (fillna0 r))
  /\ (TotalPurchaseDollars r = None ->
        TotalPurchaseDollars (fillna0 r) = Some 0%Q
        /\ GrossProfit (fillna0 r) = Some 0%Q
        /\ ProfitMargin (fillna0 r) = Some 0%Q
        /\ (~ (s == 0)%Q ->
              ~ gross_profit_follows (fillna0 r) /\ ~ profit_margin_follows (fillna0 r))).
Proof.
  destruct r as [vn vname br de pp ap vo pq pd tsq tsd tsp tet fc gp pm st sp].
  cbn [TotalSalesDollars TotalSalesQuantity GrossProfit ProfitMargin StockTurnover
       SalesToPurchaseRatio TotalPurchaseDollars TotalPurchaseQuantity].
  intros -> -> -> -> Hst ->.
  unfold gross_profit_follows, profit_margin_follows, stock_turnover_follows,
    sales_to_purchase_ratio_follows, fillna0.
  cbn [TotalSalesDollars TotalSalesQuantity GrossProfit ProfitMargin StockTurnover
       SalesToPurchaseRatio TotalPurchaseDollars TotalPurchaseQuantity].
  assert (Hpm : forall p, Nullable.ProfitMargin s (Some p) = Some (Spec.ProfitMargin s p)).
  { intros p. unfold Nullable.ProfitMargin, Spec.ProfitMargin.
    destruct (Qeq_bool s 0); reflexivity. }
  assert (Hsp : forall p, Nullable.SalesToPurchaseRatio s (Some p)
                          = Some (Spec.SalesToPurchaseRatio s p)).
  { intros p. unfold Nullable.SalesToPurchaseRatio, Spec.SalesToPurchaseRatio.
    destruct (Qeq_bool p 0); reflexivity. }
  assert (Hpm0 : fill 0%Q (Nullable.ProfitMargin s None) = Some 0%Q).
  { unfold Nullable.ProfitMargin. destruct (Qeq_bool s 0); reflexivity. }
  assert (Hst' : match pq with
                 | Some n => exists v, st = Some v /\ (v == Spec.StockTurnover sq n)%Q
                 | None => st = None
                 end).
  { destruct pq as [n |]; cbn [Nullable.StockTurnover] in Hst.
    - assert (Nullable.StockTurnover sq (Some n) = Some (Spec.StockTurnover sq n)) as E.
      { unfold Nullable.StockTurnover, Spec.StockTurnover. destruct (n =? 0)%Z; reflexivity. }
      cbn [Nullable.StockTurnover] in E. rewrite E in Hst.
      destruct st as [v |]; [| destruct Hst]. exists v. split; [reflexivity | exact Hst].
    - destruct st; [destruct Hst | reflexivity]. }
  clear Hst.
  destruct pd as [p |]; [rewrite Hpm, Hsp | rewrite Hpm0];
    (destruct pq as [n |]; [destruct Hst' as (v & -> & Hv) | subst st]);
    cbn [Nullable.GrossProfit Nullable.SalesToPurchaseRatio fmap option_fmap option_map fill];
    repeat (split || intro); try congruence; try reflexivity.
  all: try (do 2 eexists; repeat split; first [reflexivity | exact Hv]).
  all: match goal with
       | H : ex _ |- False =>
           destruct H as (s0 & p0 & Hs0 & Hp0 & Hf);
           injection Hs0 as Es; injection Hp0 as Ep; subst s0 p0; cbn [same_number] in Hf
       end.
  all: match goal with Hs : ~ (_ == 0)%Q |- _ => apply Hs end.
  all: first
    [ unfold Spec.GrossProfit in Hf; rewrite Qminus_0_r in Hf; symmetry; exact Hf
    | unfold Spec.ProfitMargin in Hf;
      match type of Hf with
      | context [Qeq_bool ?x 0] =>
          destruct (Qeq_bool x 0) eqn:E; [apply Qeq_bool_iff; exact E |];
          exfalso; rewrite full_margin in Hf
            by (intros Hz; apply Qeq_bool_iff in Hz; congruence);
          vm_compute in Hf; discriminate
      end ].
Qed.

Lemma exprs_never_raise (sd pd : option Q) (sq pq : option Z) :
  is_ok (ProfitMargin_expr sd pd) = true
  /\ is_ok (StockTurnover_expr sq pq) = true
  /\ is_ok (SalesToPurchaseRatio_expr sd pd) = true.
Proof.
  rewrite ProfitMargin_expr_spec, SalesToPurchaseRatio_expr_spec.
  destruct (StockTurnover_expr_spec sq pq) as (v & -> & _).
  repeat split.
Qed.



(** C6. The ProfitMargin expression of the query, whose ELSE branch
    divides by COALESCE(TotalSalesDollars, 1), equals for every value of
    the two columns, NULL included, the same guarded expression dividing
    by the 0-defaulted sales figure and the one dividing by the column
    itself. *)
Theorem profit_margin_coalesce_1_is_redundant :
  forall sd pd : option Q,
    ProfitMargin_expr sd pd = Spec.ProfitMargin_plain sd pd
    /\ ProfitMargin_expr sd pd = Spec.ProfitMargin_bare sd pd.
Proof.
  intros sd pd.
  unfold ProfitMargin_expr, Spec.ProfitMargin_plain, Spec.ProfitMargin_bare.
  destruct sd as [s |]; split; reflexivity.
Qed.

(** ** Sorting *)

Section Sorting.
Context {A : Type} (leb : A -> A -> bool).
Hypothesis leb_total : forall x y, leb x y = true \/ leb y x = true.

Let R (x y : A) : Prop := leb x y = true.

Lemma insert_sorted_perm x l : Permutation (insert_sorted leb x l) (x :: l).
Proof.
  induction l as [| y l IH]; simpl; [reflexivity |].
  destruct (leb x y); [reflexivity |].
  rewrite IH. apply perm_swap.
Qed.

Lemma sorted_perm l : Permutation (sorted leb l) l.
Proof.
  induction l as [| x l IH]; simpl; [reflexivity |].
  unfold sorted in *. simpl. rewrite insert_sorted_perm. constructor. exact IH.
Qed.

Lemma insert_sorted_HdRel a x l :
  R a x -> HdRel R a l -> HdRel R a (insert_sorted leb x l).
Proof.
  intros Hax Hal. destruct l as [| y l]; simpl.
  - constructor. exact Hax.
  - destruct (leb x y); constructor; [exact Hax |].
    inversion Hal; assumption.
Qed.

Lemma insert_sorted_Sorted x l : Sorted R l -> Sorted R (insert_sorted leb x l).
Proof.
  induction 1 as [| y l Hl IH Hy]; simpl.
  - repeat constructor.
  - destruct (leb x y) eqn:E.
    + constructor; [constructor; assumption | constructor; exact E].
    + constructor; [exact IH |].
      apply insert_sorted_HdRel; [| exact Hy].
      destruct (leb_total x y) as [H | H]; [congruence | exact H].
Qed.

Lemma sorted_Sorted l : Sorted R (sorted leb l).
Proof.
  induction l as [| x l IH]; [constructor |].
  unfold sorted in *. simpl. apply insert_sorted_Sorted. exact IH.
Qed.

End Sorting.

Lemma Sorted_Forall2 {A B} (R : A -> A -> Prop) (R' : B -> B -> Prop)
    (P : A -> B -> Prop) l l' :
  (forall x y x' y', P x x' -> P y y' -> R x y -> R' x' y') ->
  Forall2 P l l' -> Sorted R l -> Sorted R' l'.
Proof.
  intros HR H. induction H as [| x x' l l' Hx Hl IH]; intros Hs; [constructor |].
  inversion Hs as [| ? ? Hs' Hhd]; subst.
  constructor; [apply IH; exact Hs' |].
  destruct Hl as [| y y' l l' Hy Hl]; constructor.
  inversion Hhd; subst. eapply HR; eassumption.
Qed.

Lemma null_leb_total x y : Sql.null_leb x y = true \/ Sql.null_leb y x = true.
Proof.
  destruct x as [a |], y as [b |]; simpl; auto.
  destruct (Qle_bool a b) eqn:E; [auto | right].
  apply Qle_bool_iff. apply Qlt_le_weak, Qnot_le_lt.
  intros H. apply Qle_bool_iff in H. congruence.
Qed.

Lemma null_leb_not_below x y : Sql.null_leb y x = true -> not_below x y.
Proof.
  destruct x as [a |], y as [b |]; simpl; try done.
  apply Qle_bool_iff.
Qed.

(** ** Order of the result *)

(** C8, as stated, fails once a purchase group has no Dollars value that
    coerces: its NULL total sorts last in the query result, behind a
    negative total, and the clean-up turns it into 0. *)
Lemma cleaned_frame_not_descending :
  let stg := MkStaging []
               [MkPurchase "2" "B" "200" "Returned" "10.00" "5" "-5.00";
                MkPurchase "3" "C" "300" "Unpriced" "10.00" "5" "n/a"]
               [MkPurchasePrice "200" "1" "1"; MkPurchasePrice "300" "1" "1"] [] in
  exists q1 q2 r1 r2,
    QUERY stg = Ok [q1; q2]
    /\ TotalPurchaseDollars q1 = Some (-500 # 100)
    /\ TotalPurchaseDollars q2 = None
    /\ cleaned_frame stg = Ok [r1; r2]
    /\ TotalPurchaseDollars r1 = Some (-500 # 100)
    /\ TotalPurchaseDollars r2 = Some 0%Q
    /\ ~ (0 <= -500 # 100)%Q.
Proof.
  cbv zeta. do 4 eexists.
  split; [vm_compute; reflexivity |].
  split; [reflexivity |]. split; [reflexivity |].
  split; [vm_compute; reflexivity |].
  split; [reflexivity |]. split; [reflexivity |].
  intros H. apply Qle_bool_iff in H. vm_compute in H. discriminate.
Qed.

(** C8, amended. The query result is ordered by TotalPurchaseDollars
    descending with NULL totals last: in every pair of adjacent rows the
    later total is NULL, or both are numbers and the earlier is greater
    than or equal to the later. *)
Theorem query_rows_descend_with_nulls_last :
  forall stg : staging,
    exists df, QUERY stg = Ok df
      /\ Sorted (fun r1 r2 => not_below (TotalPurchaseDollars r1) (TotalPurchaseDollars r2)) df.
Proof.
  intros stg. destruct (QUERY_selected stg) as (df & Hq & Hsel).
  exists df. split; [exact Hq |].
  eapply Sorted_Forall2; [| exact Hsel |].
  - intros j1 j2 r1 r2 (Hp1 & _) (Hp2 & _) Hle.
    destruct (purchase_part_dollars _ _ Hp1) as [-> _].
    destruct (purchase_part_dollars _ _ Hp2) as [-> _].
    apply null_leb_not_below. exact Hle.
  - unfold joined, Sql.order_by_desc. apply sorted_Sorted.
    intros x y. apply null_leb_total.
Qed.

(** ** Grouping and joins *)

Section Grouping.
Context {K A : Type} `{EqDecision K}.

Lemma group_insert_NoDup (k : K) (a : A) gs :
  NoDup (map fst gs) -> NoDup (map fst (Sql.group_insert k a gs)).
Proof.
  assert (Hin : forall gs k', In k' (map fst (Sql.group_insert k a gs)) ->
                              k' = k \/ In k' (map fst gs)).
  { clear gs. intros gs k'. induction gs as [| [k0 ms] gs IH]; simpl.
    - intros [<- | []]. left. reflexivity.
    - destruct (decide (k = k0)); simpl; [tauto |].
      intros [<- | Hk]; [tauto |]. destruct (IH Hk); tauto. }
  induction gs as [| [k0 ms] gs IH]; simpl; intros Hnd.
  - constructor; [apply not_elem_of_nil | constructor].
  - apply NoDup_cons in Hnd as [Hk0 Hnd].
    destruct (decide (k = k0)) as [-> | Hne]; simpl.
    + apply NoDup_cons. split; assumption.
    + apply NoDup_cons. split; [| apply IH; exact Hnd].
      rewrite list_elem_of_In. intros Hk.
      destruct (Hin _ _ Hk) as [-> | Hk']; [congruence |].
      apply Hk0. rewrite list_elem_of_In. exact Hk'.
Qed.

Lemma group_by_NoDup (key : A -> K) l : NoDup (map fst (Sql.group_by key l)).
Proof.
  unfold Sql.group_by.
  assert (forall gs, NoDup (map fst gs) ->
            NoDup (map fst (fold_left (fun gs a => Sql.group_insert (key a) a gs) l gs)))
    as Hgen.
  { induction l as [| a l IH]; simpl; intros gs Hgs; [exact Hgs |].
    apply IH, group_insert_NoDup, Hgs. }
  apply Hgen. constructor.
Qed.

End Grouping.

Section Joins.
Context {L R K : Type}.

Lemma filter_none (p : R -> bool) (key : R -> K) (k : K) r :
  (forall b, In b r -> p b = true -> key b = k) ->
  ~ In k (map key r) -> List.filter p r = [].
Proof.
  induction r as [| b r IH]; simpl; intros Hk Hnot; [reflexivity |].
  destruct (p b) eqn:E.
  - exfalso. apply Hnot. left. apply Hk; auto.
  - apply IH; [intros; apply Hk; auto | tauto].
Qed.

Lemma filter_at_most_one (p : R -> bool) (key : R -> K) (k : K) r :
  NoDup (map key r) ->
  (forall b, In b r -> p b = true -> key b = k) ->
  length (List.filter p r) <= 1.
Proof.
  induction r as [| b r IH]; simpl; intros Hnd Hk; [lia |].
  apply NoDup_cons in Hnd as [Hb Hnd].
  destruct (p b) eqn:E.
  - rewrite (filter_none p key k r); [simpl; lia | intros; apply Hk; auto |].
    rewrite <- (Hk b); auto. rewrite <- list_elem_of_In. exact Hb.
  - apply IH; [exact Hnd | intros; apply Hk; auto].
Qed.

Lemma left_join_fst (on : L -> R -> option bool) l r :
  (forall a, length (List.filter (fun b => Sql.is_true (on a b)) r) <= 1) ->
  map fst (Sql.left_join on l r) = l.
Proof.
  intros Hone. unfold Sql.left_join.
  induction l as [| a l IH]; [reflexivity |].
  cbn [flat_map]. rewrite map_app, IH. specialize (Hone a).
  destruct (List.filter _ r) as [| b [| b' ms]]; simpl in *; [reflexivity .. | lia].
Qed.

Lemma left_join_In (on : L -> R -> option bool) l r a o :
  In (a, o) (Sql.left_join on l r) ->
  In a l /\ match o with
            | Some b => In b r /\ Sql.is_true (on a b) = true
            | None => True
            end.
Proof.
  unfold Sql.left_join. rewrite in_flat_map. intros (a' & Ha' & Hin).
  destruct (List.filter _ r) as [| b ms] eqn:E.
  - destruct Hin as [[= <- <-] | []]. auto.
  - assert (In (a, o) (map (fun b => (a', Some b)) (b :: ms))) as Hin' by exact Hin.
    apply in_map_iff in Hin' as (b' & [= <- <-] & Hb').
    split; [exact Ha' |].
    rewrite <- E in Hb'. apply filter_In in Hb'. exact Hb'.
Qed.

End Joins.

Lemma eqZ_true x y : Sql.is_true (Sql.eqZ x y) = true -> x = y.
Proof.
  destruct x, y; simpl; try discriminate.
  destruct (Z.eqb_spec z z0); [congruence | discriminate].
Qed.

Lemma and3_true a b :
  Sql.is_true (Sql.and3 a b) = true -> Sql.is_true a = true /\ Sql.is_true b = true.
Proof. destruct a as [[] |], b as [[] |]; simpl; auto; discriminate. Qed.

Lemma sales_on_key ps ss :
  Sql.is_true (sales_on ps ss) = true ->
  (ss_VendorNumber ss, ss_Brand ss) = (ps_VendorNumber ps, ps_Brand ps).
Proof.
  unfold sales_on. intros H. apply and3_true in H as [Hv Hb].
  apply eqZ_true in Hv, Hb. congruence.
Qed.

Lemma SalesSummary_keys_NoDup sales :
  NoDup (map (fun ss => (ss_VendorNumber ss, ss_Brand ss)) (SalesSummary sales)).
Proof.
  unfold SalesSummary. rewrite map_map. cbn [ss_VendorNumber ss_Brand].
  erewrite map_ext; [apply group_by_NoDup |].
  intros [[v b] ms]. reflexivity.
Qed.

Lemma FreightSummary_keys_NoDup vi : NoDup (map fs_VendorNumber (FreightSummary vi)).
Proof.
  unfold FreightSummary. rewrite map_map. cbn [fs_VendorNumber].
  apply group_by_NoDup.
Qed.

Lemma joined_purchase_rows stg :
  Permutation (map (fun j => fst (fst j)) (joined stg))
              (PurchaseSummary (purchases stg) (purchase_prices stg)).
Proof.
  unfold joined, Sql.order_by_desc.
  rewrite sorted_perm.
  rewrite <- (map_map fst fst).
  rewrite left_join_fst.
  - rewrite left_join_fst; [reflexivity |].
    intros ps. eapply filter_at_most_one; [apply SalesSummary_keys_NoDup |].
    intros ss _ Hon. apply sales_on_key. exact Hon.
  - intros pss. eapply filter_at_most_one; [apply FreightSummary_keys_NoDup |].
    intros fs _ Hon. apply eqZ_true in Hon. symmetry. exact Hon.
Qed.

Lemma Forall2_map_eq {A B C} (P : A -> B -> Prop) (f : A -> C) (g : B -> C) l l' :
  Forall2 P l l' -> (forall x y, P x y -> g y = f x) -> map g l' = map f l.
Proof.
  intros H Hfg. induction H; simpl; [reflexivity |]. f_equal; auto.
Qed.

Lemma Forall2_Forall_r_In {A B} (P : A -> B -> Prop) (Q : B -> Prop) l l' :
  Forall2 P l l' -> (forall x y, In x l -> P x y -> Q y) -> Forall Q l'.
Proof.
  intros H. induction H as [| x y l l' Hxy Hl IH]; intros HPQ; constructor.
  - apply (HPQ x); [left; reflexivity | exact Hxy].
  - apply IH. intros x' y' Hin. apply HPQ. right. exact Hin.
Qed.

Lemma joined_In stg ps so fo :
  In (ps, so, fo) (joined stg) ->
  match so with
  | Some ss => In ss (SalesSummary (sales stg))
               /\ ss_VendorNumber ss = ps_VendorNumber ps /\ ss_Brand ss = ps_Brand ps
  | None => True
  end
  /\ match fo with
     | Some fs => In fs (FreightSummary (vendor_invoice stg))
                  /\ fs_VendorNumber fs = ps_VendorNumber ps
     | None => True
     end.
Proof.
  unfold joined, Sql.order_by_desc. intros Hin.
  eapply Permutation_in in Hin; [| apply sorted_perm].
  apply left_join_In in Hin as [Hx Hf].
  apply left_join_In in Hx as [_ Hs].
  split.
  - destruct so as [ss |]; [| exact I]. destruct Hs as [Hin Hon].
    apply sales_on_key in Hon. injection Hon as Hv Hb. auto.
  - destruct fo as [fs |]; [| exact I]. destruct Hf as [Hin Hon].
    apply eqZ_true in Hon. auto.
Qed.

(** ** The final join *)

(** C4. The query always returns, and the purchase columns of its rows
    are, up to order, exactly the rows of PurchaseSummary, each once; in
    every row the four sales columns and FreightCost have a value, and a
    row for which SalesSummary holds no row of its vendor and brand has 0
    in the four sales columns, a row for which FreightSummary holds no row
    of its vendor has FreightCost 0. *)
Theorem left_joins_keep_every_purchase_row :
  forall stg : staging,
    exists df, QUERY stg = Ok df
      /\ Permutation (map purchase_part df)
                     (PurchaseSummary (purchases stg) (purchase_prices stg))
      /\ Forall (fun r =>
           (is_Some (TotalSalesQuantity r) /\ is_Some (TotalSalesDollars r)
            /\ is_Some (TotalSalesPrice r) /\ is_Some (TotalExciseTax r)
            /\ is_Some (FreightCost r))
           /\ (has_sales stg r
               \/ (TotalSalesQuantity r = Some 0%Z /\ TotalSalesDollars r = Some 0%Q
                   /\ TotalSalesPrice r = Some 0%Q /\ TotalExciseTax r = Some 0%Q))
           /\ (has_freight stg r \/ FreightCost r = Some 0%Q)) df.
Proof.
  intros stg. destruct (QUERY_selected stg) as (df & Hq & Hsel).
  exists df. split; [exact Hq |]. split.
  - rewrite (Forall2_map_eq selected (fun j => fst (fst j)) purchase_part _ _ Hsel).
    + apply joined_purchase_rows.
    + intros j r Hs. apply Hs.
  - eapply Forall2_Forall_r_In; [exact Hsel |].
    intros [[ps so] fo] r Hin (Hp & Hsq & Hsd & Hsp & Het & Hfc & _).
    cbn [fst snd] in *.
    apply joined_In in Hin as [Hs Hf].
    split; [rewrite Hsq, Hsd, Hsp, Het, Hfc; repeat split; eexists; reflexivity |].
    assert (VendorNumber r = ps_VendorNumber ps /\ Brand r = ps_Brand ps) as [Hv Hb]
      by (rewrite <- Hp; split; reflexivity).
    split.
    + destruct so as [ss |].
      * left. destruct Hs as (Hss & Hsv & Hsb). exists ss. rewrite Hv, Hb. auto.
      * right. rewrite Hsq, Hsd, Hsp, Het. repeat split; reflexivity.
    + destruct fo as [fs |].
      * left. destruct Hf as (Hfs & Hfv). exists fs. rewrite Hv. auto.
      * right. rewrite Hfc. reflexivity.
Qed.

(** ** Rows with unusable keys *)

Lemma and3_false a b :
  Sql.is_true a = false \/ Sql.is_true b = false -> Sql.is_true (Sql.and3 a b) = false.
Proof. destruct a as [[] |], b as [[] |]; simpl; intros [H | H]; congruence. Qed.

Lemma is_not_null_None {A} : Sql.is_true (Sql.is_not_null (@None A)) = false.
Proof. reflexivity. Qed.

Lemma freight_where_bad r : bad_freight_key r -> freight_where r = false.
Proof. unfold bad_freight_key, freight_where. intros ->. reflexivity. Qed.

Lemma sales_where_bad s : bad_sales_key s -> sales_where s = false.
Proof.
  unfold bad_sales_key, sales_where. intros [H | H]; rewrite H; apply and3_false.
  - left. reflexivity.
  - right. reflexivity.
Qed.

Lemma purchase_where_bad p pp : bad_purchase_key p -> purchase_where (p, pp) = false.
Proof.
  unfold bad_purchase_key, purchase_where. cbn [fst].
  intros [H | [H | H]].
  - rewrite H. apply and3_false. left. apply and3_false. left. reflexivity.
  - rewrite H. apply and3_false. left. apply and3_false. right. reflexivity.
  - apply and3_false. right.
    destruct (Sql.try_cast_decimal (p_PurchasePrice p)) as [q |]; [| reflexivity].
    cbn -[Qle_bool]. specialize (H q eq_refl).
    apply Qle_bool_iff in H. rewrite H. reflexivity.
Qed.

Lemma filter_cons_false {A} (f : A -> bool) x l1 l2 :
  f x = false -> List.filter f (l1 ++ x :: l2) = List.filter f (l1 ++ l2).
Proof. intros H. rewrite !List.filter_app. simpl. rewrite H. reflexivity. Qed.

Lemma inner_join_bad_left pps l1 p l2 :
  bad_purchase_key p ->
  List.filter purchase_where (Sql.inner_join purchase_on (l1 ++ p :: l2) pps)
  = List.filter purchase_where (Sql.inner_join purchase_on (l1 ++ l2) pps).
Proof.
  intros Hbad. unfold Sql.inner_join.
  rewrite !flat_map_app. cbn [flat_map]. rewrite !List.filter_app. do 2 f_equal.
  induction (List.filter _ pps) as [| pp l IH]; simpl; [reflexivity |].
  rewrite (purchase_where_bad p pp Hbad). exact IH.
Qed.

(** C5. Putting into a staging table a row whose grouping key cannot be
    used (a vendor_invoice row whose vendor id does not coerce, a sales
    row whose vendor id or brand id does not coerce, a purchases row whose
    vendor id or brand id does not coerce or whose purchase price does not
    coerce to a value above 0) changes none of the three intermediate
    aggregates, hence no sum in them, and not the query result. *)
Theorem rows_with_failed_keys_are_excluded :
  forall stg stg' : staging,
    bad_row_added stg stg' ->
    FreightSummary (vendor_invoice stg') = FreightSummary (vendor_invoice stg)
    /\ PurchaseSummary (purchases stg') (purchase_prices stg')
       = PurchaseSummary (purchases stg) (purchase_prices stg)
    /\ SalesSummary (sales stg') = SalesSummary (sales stg)
    /\ QUERY stg' = QUERY stg.
Proof.
  intros stg stg' H.
  assert (FreightSummary (vendor_invoice stg') = FreightSummary (vendor_invoice stg)
          /\ PurchaseSummary (purchases stg') (purchase_prices stg')
             = PurchaseSummary (purchases stg) (purchase_prices stg)
          /\ SalesSummary (sales stg') = SalesSummary (sales stg)) as (Hf & Hp & Hs).
  { destruct H as [l1 r l2 ps pps ss Hbad | vi l1 p l2 pps ss Hbad | vi ps pps l1 s l2 Hbad];
      cbn [vendor_invoice purchases purchase_prices sales];
      repeat split; try reflexivity.
    - unfold FreightSummary.
      rewrite (filter_cons_false _ r l1 l2 (freight_where_bad r Hbad)). reflexivity.
    - unfold PurchaseSummary. rewrite (inner_join_bad_left pps l1 p l2 Hbad). reflexivity.
    - unfold SalesSummary.
      rewrite (filter_cons_false _ s l1 l2 (sales_where_bad s Hbad)). reflexivity. }
  repeat split; try assumption.
  unfold QUERY, joined. rewrite Hf, Hp, Hs. reflexivity.
Qed.

Lemma rows_with_failed_keys_are_excluded_witness :
  let good := MkVendorInvoice "7" "2.50" in
  let bad := MkVendorInvoice "n/a" "9.00" in
  let stg := MkStaging [good] [] [] [] in
  let stg' := MkStaging [good; bad] [] [] [] in
  FreightSummary (vendor_invoice stg') = FreightSummary (vendor_invoice stg)
  /\ PurchaseSummary (purchases stg') (purchase_prices stg')
     = PurchaseSummary (purchases stg) (purchase_prices stg)
  /\ SalesSummary (sales stg') = SalesSummary (sales stg)
  /\ QUERY stg' = QUERY stg.
Proof.
  cbv zeta.
  apply (rows_with_failed_keys_are_excluded
           (MkStaging ([MkVendorInvoice "7" "2.50"] ++ []) [] [] [])
           (MkStaging ([MkVendorInvoice "7" "2.50"] ++ MkVendorInvoice "n/a" "9.00" :: [])
                      [] [] [])).
  apply bad_freight. vm_compute. reflexivity.
Defined.

(** ** Running calls against the sink *)

Lemma with_db_id w : with_db (working w) [] w = w.
Proof. destruct w. unfold with_db. simpl. rewrite app_nil_r. reflexivity. Qed.

Lemma with_db_with_db d1 lg1 d2 lg2 w :
  with_db d2 lg2 (with_db d1 lg1 w) = with_db d2 (lg1 ++ lg2) w.
Proof. unfold with_db. simpl. rewrite app_assoc. reflexivity. Qed.

Lemma bind_run {A B} (m : M A) (k : A -> M B) w :
  (m ≫= k) w = match m w with
               | (Ok a, w') => k a w'
               | (Raise e, w') => (Raise e, w')
               end.
Proof. reflexivity. Qed.

Lemma logging_run lv msg w : logging lv msg w = (Ok tt, with_db (working w) [(lv, msg)] w).
Proof. reflexivity. Qed.

Lemma execute_run s w :
  autocommit w = false ->
  execute s w = match exec s (working w) with
                | inr d => (Ok tt, with_db d [] w)
                | inl e => (Raise (SinkError e), w)
                end.
Proof.
  intros Hac. unfold execute. destruct (exec s (working w)); [reflexivity |].
  unfold set_working, with_db. rewrite Hac, app_nil_r. reflexivity.
Qed.

Lemma executemany_run s rows w :
  autocommit w = false ->
  executemany s rows w = match exec_many s rows (working w) with
                         | inr d => (Ok tt, with_db d [] w)
                         | inl e => (Raise (SinkError e), w)
                         end.
Proof.
  intros Hac. unfold executemany. destruct (exec_many s rows (working w)); [reflexivity |].
  unfold set_working, with_db. rewrite Hac, app_nil_r. reflexivity.
Qed.

Lemma exec_create_dropped t defs (d : db) :
  exec (CreateTable t defs) (delete t d)
  = match defs with
    | [] => inl (NoColumns t)
    | _ => if distinct (map fst defs) then inr (<[t := Table defs []]> d)
           else inl (DuplicateColumn t)
    end.
Proof.
  unfold exec. rewrite lookup_delete_eq.
  destruct defs as [| x defs']; [reflexivity |].
  destruct (distinct _); [| reflexivity].
  f_equal. apply insert_delete_eq.
Qed.

Lemma apply_all_app us us' d : apply_all (us ++ us') d = apply_all us' (apply_all us d).
Proof. apply fold_left_app. Qed.

Lemma apply_all_lookup us : forall d k,
  apply_all us d !! k = default (d !! k) (assigned k us).
Proof.
  induction us as [| [t x] us IH]; intros d k; [reflexivity |].
  change (apply_all ((t, x) :: us) d) with (apply_all us (set_table t x d)).
  rewrite IH. cbn [assigned fst snd].
  destruct (assigned k us) as [y |]; [reflexivity |].
  destruct (decide (t = k)) as [-> | Hne]; destruct x as [tb |]; simpl.
  - apply lookup_insert_eq.
  - apply lookup_delete_eq.
  - apply lookup_insert_ne. exact Hne.
  - apply lookup_delete_ne. exact Hne.
Qed.

Lemma apply_all_idempotent us d : apply_all us (apply_all us d) = apply_all us d.
Proof.
  apply map_eq. intros k. rewrite !apply_all_lookup.
  destruct (assigned k us); reflexivity.
Qed.

Section Tracks.
Context {A B : Type}.

Lemma tracks_ret (a : A) : tracks (mret a) (Ok a) [].
Proof.
  intros w _. exists []. change (apply_all [] (working w)) with (working w).
  rewrite with_db_id. reflexivity.
Qed.

Lemma tracks_lift (r : result A) : tracks (lift r) r [].
Proof.
  intros w _. exists []. change (apply_all [] (working w)) with (working w).
  rewrite with_db_id. reflexivity.
Qed.

Lemma tracks_bind (m : M A) (k : A -> M B) a us r us' :
  tracks m (Ok a) us -> tracks (k a) r us' -> tracks (m ≫= k) r (us ++ us').
Proof.
  intros Hm Hk w Hac. destruct (Hm w Hac) as [lg Hm'].
  destruct (Hk (with_db (apply_all us (working w)) lg w) Hac) as [lg' Hk'].
  exists (lg ++ lg'). rewrite bind_run, Hm', Hk'.
  cbn [working with_db]. rewrite apply_all_app.
  unfold with_db. simpl. rewrite app_assoc. reflexivity.
Qed.

Lemma tracks_bind_raise (m : M A) (k : A -> M B) e us :
  tracks m (Raise e) us -> tracks (m ≫= k) (Raise e) us.
Proof.
  intros Hm w Hac. destruct (Hm w Hac) as [lg Hm'].
  exists lg. rewrite bind_run, Hm'. reflexivity.
Qed.

End Tracks.

Lemma tracks_logging lv msg : tracks (logging lv msg) (Ok tt) [].
Proof. intros w _. exists [(lv, msg)]. reflexivity. Qed.

Lemma tracks_ensure_table t columns column_types :
  tracks (ensure_table t columns column_types)
         (fst (plan_ensure_table t columns column_types))
         (snd (plan_ensure_table t columns column_types)).
Proof.
  intros w Hac. unfold ensure_table, plan_ensure_table.
  fold (column_defs columns column_types).
  set (defs := column_defs columns column_types).
  rewrite bind_run, logging_run, bind_run.
  rewrite execute_run by exact Hac.
  change (exec (DropTableIfExists t) _) with (@inr sink_error db (delete t (working w))).
  cbv iota beta. rewrite with_db_with_db.
  rewrite execute_run by exact Hac. cbn [working with_db].
  rewrite exec_create_dropped.
  destruct defs as [| x defs'].
  - eexists. reflexivity.
  - destruct (distinct _).
    + eexists. rewrite with_db_with_db. reflexivity.
    + eexists. reflexivity.
Qed.

Lemma tracks_bind_nil {A B} (m : M A) (k : A -> M B) a r us :
  tracks m (Ok a) [] -> tracks (k a) r us -> tracks (m ≫= k) r us.
Proof. apply (tracks_bind m k a [] r us). Qed.

Lemma for_each_enumerate {A} (l : list A) (f : A -> M unit) :
  forall i, for_each l f = for_enumerate i l (fun _ => f).
Proof.
  induction l as [| x l IH]; intros i; simpl; [reflexivity |].
  rewrite (IH (S i)). reflexivity.
Qed.

Lemma insert_loop t defs cols lv (msg : nat -> list (list string) -> string) chs :
  forall i acc w,
    autocommit w = false ->
    working w !! t = Some (Table defs acc) ->
    exists lg,
      for_enumerate i chs
        (fun i rows => executemany (InsertInto t cols) rows ;; logging lv (msg i rows)) w
      = (fst (plan_inserts t defs cols chs),
         with_db (<[t := Table defs (acc ++ snd (plan_inserts t defs cols chs))]> (working w))
                 lg w).
Proof.
  induction chs as [| rows chs IH]; intros i acc w Hac Ht.
  - exists []. simpl. rewrite app_nil_r, (insert_id _ _ _ Ht), with_db_id. reflexivity.
  - cbn [for_enumerate plan_inserts]. rewrite !bind_run.
    rewrite executemany_run by exact Hac.
    unfold exec_many. rewrite Ht. cbn [tbl_cols tbl_rows].
    destruct (bool_decide (cols = map fst defs)).
    + destruct (forallb _ rows).
      * rewrite logging_run, with_db_with_db.
        edestruct (IH (S i) (acc ++ rows)) as [lg Hlg]; [| | rewrite Hlg].
        -- exact Hac.
        -- cbn [working with_db]. apply lookup_insert_eq.
        -- eexists. cbn [fst snd working with_db].
           rewrite insert_insert_eq, with_db_with_db, <- app_assoc. reflexivity.
      * exists []. cbn [fst snd].
        rewrite app_nil_r, (insert_id _ _ _ Ht), with_db_id. reflexivity.
    + exists []. cbn [fst snd].
      rewrite app_nil_r, (insert_id _ _ _ Ht), with_db_id. reflexivity.
Qed.

Lemma plan_ensure_table_ok t columns column_types us :
  plan_ensure_table t columns column_types = (Ok tt, us) ->
  us = [(t, Some (Table (column_defs columns column_types) []))].
Proof.
  unfold plan_ensure_table.
  destruct (column_defs columns column_types) as [| x defs]; [discriminate |].
  destruct (distinct _); [| discriminate].
  intros [= <-]. reflexivity.
Qed.

Lemma tracks_load t columns column_types chs i lv msg :
  tracks (ensure_table t columns column_types ;;
          for_enumerate i chs
            (fun i rows => executemany (InsertInto t columns) rows ;; logging lv (msg i rows)))
         (fst (plan_load t columns column_types chs))
         (snd (plan_load t columns column_types chs)).
Proof.
  intros w Hac.
  destruct (tracks_ensure_table t columns column_types w Hac) as [lg He].
  rewrite bind_run, He. unfold plan_load.
  destruct (plan_ensure_table t columns column_types) as [[[] | e] us] eqn:Hp;
    cbn [fst snd].
  - apply plan_ensure_table_ok in Hp as ->.
    edestruct (insert_loop t (column_defs columns column_types) columns lv msg chs i [])
      as [lg' Hlg]; [| | rewrite Hlg].
    + exact Hac.
    + cbn. apply lookup_insert_eq.
    + exists (lg ++ lg'). cbn [working with_db apply_all fold_left set_table fst snd app].
      rewrite insert_insert_eq, with_db_with_db. reflexivity.
  - exists lg. reflexivity.
Qed.

Lemma tracks_ingest_file fs file_path table_name chunk_size column_types :
  tracks (ingest_file fs file_path table_name chunk_size column_types)
         (fst (plan_ingest_file fs file_path table_name chunk_size column_types))
         (snd (plan_ingest_file fs file_path table_name chunk_size column_types)).
Proof.
  unfold ingest_file, plan_ingest_file.
  eapply tracks_bind_nil; [apply tracks_logging |].
  destruct (read_file fs file_path) as [content | e].
  - eapply tracks_bind_nil; [apply tracks_lift |].
    destruct (Csv.read_header content) as [header | e].
    + eapply tracks_bind_nil; [apply tracks_lift |].
      apply (tracks_load table_name (map sanitize header) column_types _ 0 LvlInfo
               (fun batch_idx rows =>
                  "  Batch " +:+ pretty (batch_idx + 1) +:+ ": inserted "
                    +:+ pretty (length rows) +:+ " rows")).
    + apply tracks_bind_raise, tracks_lift.
  - apply tracks_bind_raise, tracks_lift.
Qed.

Lemma tracks_ingest_table_from_csv fs folder_path fname column_types :
  tracks (ingest_table_from_csv fs folder_path fname column_types)
         (fst (plan_ingest_table_from_csv fs folder_path fname column_types))
         (snd (plan_ingest_table_from_csv fs folder_path fname column_types)).
Proof.
  unfold ingest_table_from_csv, plan_ingest_table_from_csv.
  destruct (getsize fs (folder_path ++ [fname])) as [size | e].
  - eapply tracks_bind_nil; [apply tracks_lift |].
    destruct (size =? 0); [apply tracks_logging |].
    destruct (read_file fs (folder_path ++ [fname])) as [content | e].
    + eapply tracks_bind_nil; [apply tracks_lift |].
      eapply tracks_bind_nil; [apply tracks_logging |].
      rewrite (for_each_enumerate _ _ 0).
      apply (tracks_load (splitext_root fname) _ column_types _ 0 LvlInfo
               (fun _ rows =>
                  "  -> inserted " +:+ pretty (length rows) +:+ " rows into `"
                    +:+ splitext_root fname +:+ "`")).
    + apply tracks_bind_raise, tracks_lift.
  - apply tracks_bind_raise, tracks_lift.
Qed.

Lemma tracks_then_logging (m : M unit) r us lv msg :
  tracks m r us -> tracks (m ;; logging lv msg) r us.
Proof.
  intros Hm. destruct r as [[] | e].
  - rewrite <- (app_nil_r us). eapply tracks_bind; [exact Hm | apply tracks_logging].
  - apply tracks_bind_raise. exact Hm.
Qed.

Lemma tracks_for_each {A} (f : A -> M unit) (p : A -> result unit * effect) l :
  (forall x, tracks (f x) (fst (p x)) (snd (p x))) ->
  tracks (for_each l f) (fst (plan_seq (map p l))) (snd (plan_seq (map p l))).
Proof.
  intros Hf. induction l as [| x l IH]; [apply tracks_ret |].
  cbn [for_each map plan_seq]. specialize (Hf x).
  destruct (p x) as [[[] | e] us]; cbn [fst snd] in *.
  - eapply tracks_bind; [exact Hf | exact IH].
  - apply tracks_bind_raise. exact Hf.
Qed.

Lemma tracks_ingest_folder fs folder_path file_extension column_types :
  tracks (ingest_folder fs folder_path file_extension column_types)
         (fst (plan_ingest_folder fs folder_path file_extension column_types))
         (snd (plan_ingest_folder fs folder_path file_extension column_types)).
Proof.
  unfold ingest_folder, plan_ingest_folder.
  destruct (negb (isdir fs folder_path)); [apply tracks_logging |].
  apply tracks_then_logging.
  apply (tracks_for_each _
           (fun fname => plan_ingest_table_from_csv fs folder_path fname column_types)).
  intros fname. apply tracks_ingest_table_from_csv.
Qed.

(** The scope around a body whose run is known. *)
Lemma get_db_connection_run {A} (body : M A) w rb wb :
  body (snd (connect false w)) = (rb, wb) ->
  get_db_connection false body w
  = (match rb with Ok _ => Ok tt | Raise e => Raise e end,
     World (if is_ok rb then working wb else durable wb)
           (if is_ok rb then working wb else durable wb)
           (autocommit wb)
           (if is_ok rb then S (commits wb) else commits wb)
           true true (logs wb)).
Proof.
  intros Hb. unfold get_db_connection, try_finally. rewrite bind_run.
  change (connect false w) with (Ok tt, snd (connect false w)). cbv iota beta.
  rewrite bind_run, Hb. destruct rb; reflexivity.
Qed.

Lemma main_run fs folders file_extension column_types w :
  let p := plan_main fs folders file_extension column_types in
  fst (main fs folders file_extension column_types w) = fst p
  /\ durable (snd (main fs folders file_extension column_types w))
     = if is_ok (fst p) then apply_all (snd p) (durable w) else durable w.
Proof.
  cbv zeta. unfold main, plan_main.
  set (ps := map _ folders).
  pose proof (tracks_for_each
                (fun folder => ingest_folder fs folder file_extension column_types)
                (fun folder => plan_ingest_folder fs folder file_extension column_types)
                folders
                (fun folder => tracks_ingest_folder fs folder file_extension column_types))
    as Ht.
  fold ps in Ht.
  rewrite bind_run, logging_run, bind_run.
  set (w1 := with_db (working w) _ w).
  destruct (Ht (snd (connect false w1)) eq_refl) as [lg Hlg].
  destruct (fst (plan_seq ps)) as [[] | e];
    (erewrite get_db_connection_run;
       [| rewrite bind_run, Hlg; unfold commit; reflexivity]);
    split; reflexivity.
Qed.

Lemma ingest_all_run fs data_folder column_types w :
  let p := plan_ingest_all fs data_folder column_types in
  fst (ingest_all fs data_folder column_types w) = fst p
  /\ durable (snd (ingest_all fs data_folder column_types w))
     = if is_ok (fst p) then apply_all (snd p) (durable w) else durable w.
Proof.
  cbv zeta. unfold ingest_all, plan_ingest_all.
  pose proof (tracks_for_each
                (fun file_path =>
                   ingest_file fs file_path (stem file_path)
                               IngestionConfig.CHUNK_SIZE column_types)
                (fun file_path =>
                   plan_ingest_file fs file_path (stem file_path)
                                    IngestionConfig.CHUNK_SIZE column_types)
                (list_csv_files fs data_folder)
                (fun file_path => tracks_ingest_file fs file_path _ _ column_types))
    as Ht.
  destruct (list_csv_files fs data_folder) as [| f files]; [split; reflexivity |].
  set (ps := map _ (f :: files)) in *.
  rewrite bind_run.
  destruct (Ht (snd (connect false w)) eq_refl) as [lg Hlg].
  erewrite get_db_connection_run; [| exact Hlg].
  destruct (fst (plan_seq ps)) as [[] | e]; split; reflexivity.
Qed.

(** A body that only logs, executes and inserts, and then raises, leaves
    the committed store as the scope found it. *)
Lemma failed_scope_commits_nothing {A} (body : M A) e us w :
  tracks body (Raise e) us ->
  get_db_connection false body w
  = (Raise e, snd (get_db_connection false body w))
  /\ durable (snd (get_db_connection false body w)) = durable w
  /\ commits (snd (get_db_connection false body w)) = commits w.
Proof.
  intros Hb. destruct (Hb (snd (connect false w)) eq_refl) as [lg Hlg].
  rewrite (get_db_connection_run body w _ _ Hlg). repeat split.
Qed.

(** ** Running ingestion again *)

(** C7. A second run of the ingestion over the same files, started from
    the store the first run left, ends with the same result and leaves
    every committed table with the same columns and the same rows as the
    first run did, in the multi-folder flow of ingestion.py and in the
    recursive flow of utils.py alike: each load replaces its table. *)
Theorem ingestion_twice_leaves_same_tables :
  forall (fs : node) (folders : list path) (data_folder : path) (file_extension : string)
         (column_types : option (list string)) (w : world),
    let w1 := snd (main fs folders file_extension column_types w) in
    let w2 := snd (main fs folders file_extension column_types w1) in
    let v1 := snd (ingest_all fs data_folder column_types w) in
    let v2 := snd (ingest_all fs data_folder column_types v1) in
    (durable w2 = durable w1
     /\ fst (main fs folders file_extension column_types w1)
        = fst (main fs folders file_extension column_types w))
    /\ (durable v2 = durable v1
        /\ fst (ingest_all fs data_folder column_types v1)
           = fst (ingest_all fs data_folder column_types w)).
Proof.
  intros fs folders data_folder file_extension column_types w. cbv zeta. split.
  - destruct (main_run fs folders file_extension column_types w) as [Hr Hd].
    destruct (main_run fs folders file_extension column_types
                (snd (main fs folders file_extension column_types w))) as [Hr' Hd'].
    split; [| congruence].
    rewrite Hd', Hd.
    destruct (is_ok _); [apply apply_all_idempotent | reflexivity].
  - destruct (ingest_all_run fs data_folder column_types w) as [Hr Hd].
    destruct (ingest_all_run fs data_folder column_types
                (snd (ingest_all fs data_folder column_types w))) as [Hr' Hd'].
    split; [| congruence].
    rewrite Hd', Hd.
    destruct (is_ok _); [apply apply_all_idempotent | reflexivity].
Qed.

(** ** The recursive flow *)

Lemma path_leb_total p q : path_leb p q = true \/ path_leb q p = true.
Proof.
  revert q. induction p as [| a p IH]; intros q; [left; reflexivity |].
  destruct q as [| b q]; [right; reflexivity |].
  simpl. rewrite (String.compare_antisym a b).
  destruct (String.compare b a); simpl; auto.
Qed.

Lemma chunks_upto_concat {A} n :
  0 < n -> forall fuel (l : list A), length l <= fuel ->
  concat (Csv.chunks_upto fuel n l) = l.
Proof.
  intros Hn. induction fuel as [| fuel IH]; intros l Hl.
  - destruct l; [reflexivity | simpl in Hl; lia].
  - destruct l as [| x l']; [reflexivity |].
    cbn [Csv.chunks_upto concat]. rewrite IH; [apply take_drop |].
    rewrite length_drop. simpl in *. lia.
Qed.

Lemma chunks_concat {A} n (l : list A) : 0 < n -> concat (Csv.chunks n l) = l.
Proof. intros Hn. apply chunks_upto_concat; [exact Hn | reflexivity]. Qed.

Lemma plan_inserts_ok t defs cols chs :
  fst (plan_inserts t defs cols chs) = Ok tt ->
  snd (plan_inserts t defs cols chs) = concat chs.
Proof.
  induction chs as [| rows chs IH]; [reflexivity |].
  cbn [plan_inserts concat].
  destruct (bool_decide _); [| discriminate].
  destruct (forallb _ rows); [| discriminate].
  cbn [fst snd]. intros H. rewrite (IH H). reflexivity.
Qed.

Lemma plan_seq_ok ps :
  fst (plan_seq ps) = Ok tt ->
  Forall (fun p => fst p = Ok tt) ps /\ snd (plan_seq ps) = concat (map snd ps).
Proof.
  induction ps as [| [[[] | e] us] ps IH]; cbn [plan_seq fst snd map concat].
  - split; [constructor | reflexivity].
  - intros H. destruct (IH H) as [Hall ->]. split; [constructor; auto | reflexivity].
  - discriminate.
Qed.

Lemma plan_ingest_file_ok fs f t n column_types :
  0 < n ->
  fst (plan_ingest_file fs f t n column_types) = Ok tt ->
  exists content,
    read_file fs f = Ok content
    /\ snd (plan_ingest_file fs f t n column_types)
       = [(t, Some (file_table content column_types))].
Proof.
  intros Hn. unfold plan_ingest_file.
  destruct (read_file fs f) as [content | e]; [| discriminate].
  destruct (Csv.read_header content) as [header | e] eqn:Hh; [| discriminate].
  unfold plan_load.
  destruct (plan_ensure_table _ _ _) as [[[] | e] us]; [| discriminate].
  cbn [fst snd]. intros H. rewrite (plan_inserts_ok _ _ _ _ H), chunks_concat by exact Hn.
  exists content. unfold file_table. rewrite Hh. split; reflexivity.
Qed.

Lemma assigned_app k us us' :
  assigned k (us ++ us')
  = match assigned k us' with Some y => Some y | None => assigned k us end.
Proof.
  induction us as [| u us IH]; simpl.
  - destruct (assigned k us'); reflexivity.
  - rewrite IH. destruct (assigned k us'); reflexivity.
Qed.

Lemma assigned_none k us : Forall (fun u => fst u <> k) us -> assigned k us = None.
Proof.
  induction 1 as [| u us Hu _ IH]; simpl; [reflexivity |].
  rewrite IH. destruct (decide (fst u = k)); [contradiction | reflexivity].
Qed.

Lemma rfind_dot_csv base : Str.rfind_dot (base +:+ ".csv") = Some (String.length base).
Proof.
  induction base as [| c base IH]; [reflexivity |].
  simpl. change (base ++ ".csv")%string with (base +:+ ".csv"). rewrite IH. reflexivity.
Qed.

Lemma substring_prefix s s' : substring 0 (String.length s) (s +:+ s') = s.
Proof.
  induction s as [| c s IH]; simpl.
  - destruct s'; reflexivity.
  - change (s ++ s')%string with (s +:+ s'). rewrite IH. reflexivity.
Qed.

Lemma length_append s s' :
  String.length (s +:+ s') = String.length s + String.length s'.
Proof.
  induction s as [| c s IH]; [reflexivity |].
  simpl. change (s ++ s')%string with (s +:+ s'). rewrite IH. reflexivity.
Qed.

Lemma stem_csv dir base : base <> "" -> stem (dir ++ [base +:+ ".csv"]) = base.
Proof.
  intros Hne. unfold stem, name. rewrite last_last, rfind_dot_csv.
  assert ((0 <? String.length base) && (String.length base <? String.length (base +:+ ".csv") - 1)
          = true) as ->.
  { rewrite length_append. destruct base as [| c base]; [congruence |].
    apply andb_true_intro. split; apply Nat.ltb_lt; simpl; lia. }
  apply substring_prefix.
Qed.

Lemma CHUNK_SIZE_pos : 0 < IngestionConfig.CHUNK_SIZE.
Proof. unfold IngestionConfig.CHUNK_SIZE. lia. Qed.

Lemma later_files_leave_table fs column_types k after :
  Forall (fun p => fst p = Ok tt)
         (map (fun g => plan_ingest_file fs g (stem g) IngestionConfig.CHUNK_SIZE column_types)
              after) ->
  (forall g, In g after -> stem g <> k) ->
  assigned k
    (concat (map snd
       (map (fun g => plan_ingest_file fs g (stem g) IngestionConfig.CHUNK_SIZE column_types)
            after)))
  = None.
Proof.
  induction after as [| g after IH]; [reflexivity |].
  cbn [map concat]. intros Hall Hne.
  apply Forall_cons in Hall as [Hg Hall].
  destruct (plan_ingest_file_ok fs g (stem g) _ column_types CHUNK_SIZE_pos Hg)
    as (content & _ & ->).
  rewrite assigned_app, IH; [| exact Hall | intros; apply Hne; right; assumption].
  simpl. destruct (decide (stem g = k)) as [He | _]; [| reflexivity].
  exfalso. apply (Hne g); [left; reflexivity | exact He].
Qed.



Example west_stock_replaces_east_stock :
  list_csv_files two_stock_files ["data"]
  = [["data"; "east"; "stock.csv"]; ["data"; "west"; "stock.csv"]]
  /\ durable (snd (ingest_all two_stock_files ["data"] None empty_world)) !! "stock"
     = Some (Table [("sku", "VARCHAR(MAX) NULL"); ("on_hand", "VARCHAR(MAX) NULL")]
                   [["B-7"; "3"]; ["B-8"; "4"]]).
Proof. split; vm_compute; reflexivity. Qed.

(** ** Zero-byte files *)

Lemma read_header_empty : Csv.read_header "" = Raise EmptyDataError.
Proof. reflexivity. Qed.

(** C2, what the code does. For a zero-byte file the loader of
    ingestion.py returns normally, having written a warning and touched
    nothing else, while the loader of utils.py, which has no size test,
    raises EmptyDataError from reading the header, having written its
    first log line and touched no table. *)
Theorem zero_byte_file_skipped_in_one_flow_raises_in_other :
  forall (fs : node) (folder_path : path) (fname : string) (file_path : path)
         (table_name : string) (chunk_size : nat) (column_types : option (list string))
         (w : world),
    read_file fs (folder_path ++ [fname]) = Ok "" ->
    read_file fs file_path = Ok "" ->
    ingest_table_from_csv fs folder_path fname column_types w
    = (Ok tt,
       with_db (working w)
               [(LvlWarning, "Skipping empty file: " +:+ path_str (folder_path ++ [fname]))] w)
    /\ ingest_file fs file_path table_name chunk_size column_types w
       = (Raise EmptyDataError,
          with_db (working w)
                  [(LvlInfo, "Ingesting `" +:+ path_str file_path +:+ "` -> `"
                               +:+ table_name +:+ "`")] w).
Proof.
  intros fs folder_path fname file_path table_name chunk_size column_types w H1 H2.
  split.
  - unfold ingest_table_from_csv, getsize. unfold read_file in H1.
    destruct (lookup_path (folder_path ++ [fname]) fs) as [[c | es] |];
      try discriminate.
    injection H1 as ->. reflexivity.
  - unfold ingest_file. rewrite bind_run, logging_run, bind_run.
    unfold lift at 1. rewrite H2. cbv iota beta.
    rewrite bind_run. unfold lift at 1. rewrite read_header_empty. reflexivity.
Qed.

Lemma zero_byte_file_skipped_in_one_flow_raises_in_other_witness :
  ingest_table_from_csv one_empty_file ["data"] "empty.csv" None empty_world
  = (Ok tt,
     with_db (working empty_world)
             [(LvlWarning, "Skipping empty file: " +:+ path_str (["data"] ++ ["empty.csv"]))]
             empty_world)
  /\ ingest_file one_empty_file ["data"; "empty.csv"] "empty" IngestionConfig.CHUNK_SIZE None
       empty_world
     = (Raise EmptyDataError,
        with_db (working empty_world)
                [(LvlInfo, "Ingesting `" +:+ path_str ["data"; "empty.csv"] +:+ "` -> `"
                             +:+ "empty" +:+ "`")] empty_world).
Proof.
  apply (zero_byte_file_skipped_in_one_flow_raises_in_other
           one_empty_file ["data"] "empty.csv" ["data"; "empty.csv"] "empty"
           IngestionConfig.CHUNK_SIZE None empty_world).
  - reflexivity.
  - reflexivity.
Defined.

Example zero_byte_file_aborts_ingest_all :
  fst (ingest_all one_empty_file ["data"] None empty_world) = Raise EmptyDataError
  /\ fst (main one_empty_file [["data"]] ".csv" None empty_world) = Ok tt.
Proof. split; vm_compute; reflexivity. Qed.

(** ** The worked example, from the files to the cleaned frame *)

Example widget_example_end_to_end :
  let w := snd (main widget_files [["data"]; ["logs"]] ".csv" None empty_world) in
  exists r,
    read_and_clean (durable w) = Ok [r]
    /\ VendorName r = "Acme"
    /\ same_number (TotalPurchaseDollars r) (Some 50%Q)
    /\ same_number (TotalSalesDollars r) (Some 80%Q)
    /\ same_number (FreightCost r) (Some 3.25%Q)
    /\ same_number (GrossProfit r) (Some 30%Q)
    /\ same_number (ProfitMargin r) (Some 37.5%Q)
    /\ same_number (StockTurnover r) (Some 0.8%Q)
    /\ same_number (SalesToPurchaseRatio r) (Some 1.6%Q).
Proof.
  cbv zeta. eexists. split; [vm_compute; reflexivity |].
  repeat split; vm_compute; reflexivity.
Qed.

(** * Further properties of the code *)

(** ** The connection scope with autocommit *)

(** X1. A scope opened with autocommit enabled never issues a commit of
    its own: the commit counter and the committed contents are the
    body's, the body's exception propagates, and the cursor and the
    connection are closed on every path. *)
Theorem autocommit_scope_issues_no_commit :
  forall (A : Type) (body : M A) (w : world),
    let rb := fst (body (snd (connect true w))) in
    let wb := snd (body (snd (connect true w))) in
    let r' := fst (get_db_connection true body w) in
    let w' := snd (get_db_connection true body w) in
    commits w' = commits wb
    /\ durable w' = durable wb
    /\ r' = match rb with Ok _ => Ok tt | Raise e => Raise e end
    /\ cursor_closed w' = true /\ conn_closed w' = true.
Proof.
  intros A body w. cbv zeta.
  unfold get_db_connection, try_finally, mbind, M_bind. simpl.
  destruct (body _) as [[a | e] wb]; simpl; repeat split; reflexivity.
Qed.

(** X2. A statement the sink accepts, run in a scope whose body raises
    afterwards, stays in the committed store when the scope was opened
    with autocommit and is discarded when it was not; neither scope
    issues a commit. *)
Theorem write_before_error_kept_only_with_autocommit :
  forall (s : statement) (e : exn) (w : world) (d : db),
    exec s (durable w) = inr d ->
    let on := get_db_connection true (execute s ;; raise (A := unit) e) w in
    let off := get_db_connection false (execute s ;; raise (A := unit) e) w in
    (fst on = Raise e /\ durable (snd on) = d /\ commits (snd on) = commits w)
    /\ (fst off = Raise e /\ durable (snd off) = durable w
        /\ commits (snd off) = commits w).
Proof.
  intros s e w d Hexec. cbv zeta.
  unfold get_db_connection, try_finally, mbind, M_bind, execute, connect, raise.
  cbn -[exec]. rewrite Hexec. cbn. repeat split.
Qed.

Lemma write_before_error_kept_only_with_autocommit_witness :
  let s := CreateTable "t" [("a", "INT NULL")] in
  let e := EmptyDataError in
  let on := get_db_connection true (execute s ;; raise (A := unit) e) empty_world in
  let off := get_db_connection false (execute s ;; raise (A := unit) e) empty_world in
  (fst on = Raise e /\ durable (snd on) = <["t" := Table [("a", "INT NULL")] []]> ∅
   /\ commits (snd on) = commits empty_world)
  /\ (fst off = Raise e /\ durable (snd off) = durable empty_world
      /\ commits (snd off) = commits empty_world).
Proof.
  cbv zeta.
  apply (write_before_error_kept_only_with_autocommit
           (CreateTable "t" [("a", "INT NULL")]) EmptyDataError empty_world
           (<["t" := Table [("a", "INT NULL")] []]> ∅)).
  vm_compute. reflexivity.
Defined.

(** ** More on table provisioning *)

Lemma ensure_table_working t columns column_types w :
  fst (ensure_table t columns column_types w) = fst (plan_ensure_table t columns column_types)
  /\ working (snd (ensure_table t columns column_types w))
     = apply_all (snd (plan_ensure_table t columns column_types)) (working w).
Proof.
  unfold ensure_table, plan_ensure_table, mbind, M_bind, logging, execute.
  fold (column_defs columns column_types).
  cbn -[exec column_defs].
  change (exec (DropTableIfExists t) (working w)) with (@inr sink_error db (delete t (working w))).
  cbn -[exec column_defs]. rewrite exec_create_dropped.
  destruct (column_defs columns column_types) as [| x defs]; [split; reflexivity |].
  destruct (distinct _); split; reflexivity.
Qed.

(** X3. Whatever [ensure_table] is given and whether or not it
    succeeds, the rows the table held before are gone from the open
    transaction: afterwards the table is absent and the call has raised,
    or the call has returned and the table is empty with the zipped
    column definitions. *)
Theorem ensure_table_old_rows_never_survive :
  forall (t : string) (columns : list string) (column_types : option (list string))
         (w : world),
    match working (snd (ensure_table t columns column_types w)) !! t with
    | None => is_ok (fst (ensure_table t columns column_types w)) = false
    | Some tb =>
        fst (ensure_table t columns column_types w) = Ok tt
        /\ tbl_rows tb = []
        /\ tbl_cols tb = column_defs columns column_types
    end.
Proof.
  intros t columns column_types w.
  destruct (ensure_table_working t columns column_types w) as [-> ->].
  unfold plan_ensure_table.
  destruct (column_defs columns column_types) as [| x defs] eqn:E.
  - cbn. rewrite lookup_delete_eq. reflexivity.
  - destruct (distinct _); cbn.
    + rewrite lookup_insert_eq. repeat split.
    + rewrite lookup_delete_eq. reflexivity.
Qed.

Lemma combine_repeat {A B} (l : list A) (x : B) :
  combine l (repeat x (length l)) = map (fun a => (a, x)) l.
Proof. induction l as [| a l IH]; simpl; [reflexivity | rewrite IH; reflexivity]. Qed.

(** X5. Called without a type list, [ensure_table] keeps every column
    and types each one VARCHAR(MAX) NULL: for a non-empty list of
    distinct names it succeeds and leaves an empty table with those
    columns, in the order given. *)
Theorem ensure_table_defaults_to_wide_text :
  forall (t : string) (columns : list string) (w : world),
    columns <> [] ->
    NoDup columns ->
    fst (ensure_table t columns None w) = Ok tt
    /\ working (snd (ensure_table t columns None w)) !! t
       = Some (Table (map (fun c => (c, "VARCHAR(MAX) NULL")) columns) []).
Proof.
  intros t columns w Hne Hnd.
  destruct (ensure_table_working t columns None w) as [-> ->].
  unfold plan_ensure_table, column_defs. rewrite combine_repeat.
  destruct columns as [| c cs]; [congruence |].
  cbn [map]. unfold distinct.
  rewrite bool_decide_eq_true_2.
  - cbn. rewrite lookup_insert_eq. split; reflexivity.
  - cbn [map fst]. rewrite map_map. cbn [fst]. rewrite map_id. exact Hnd.
Qed.

Lemma ensure_table_defaults_to_wide_text_witness :
  fst (ensure_table "t" ["a"; "b"] None empty_world) = Ok tt
  /\ working (snd (ensure_table "t" ["a"; "b"] None empty_world)) !! "t"
     = Some (Table (map (fun c => (c, "VARCHAR(MAX) NULL")) ["a"; "b"]) []).
Proof.
  apply (ensure_table_defaults_to_wide_text "t" ["a"; "b"] empty_world).
  - discriminate.
  - refine (bool_decide_unpack _ _). vm_compute. exact I.
Defined.

(** ** File discovery *)

Lemma entry_In nm es x : entry nm es = Some x -> In (nm, x) es.
Proof.
  induction es as [| [n y] es IH]; simpl; [discriminate |].
  destruct (String.eqb_spec n nm) as [-> | _].
  - intros [= ->]. left. reflexivity.
  - intros H. right. apply IH, H.
Qed.

Lemma lookup_path_app p q n :
  lookup_path (p ++ q) n = lookup_path p n ≫= lookup_path q.
Proof.
  revert n. induction p as [| c p IH]; intros n; [reflexivity |].
  simpl. destruct n as [content | es]; [reflexivity |].
  destruct (entry c es); [apply IH | reflexivity].
Qed.

Lemma walk_complete rest : forall n prefix x,
  rest <> [] -> lookup_path rest n = Some x -> In (prefix ++ rest) (walk prefix n).
Proof.
  induction rest as [| c rest IH]; intros n prefix x Hne Hl; [congruence |].
  simpl in Hl. destruct n as [content | es]; [discriminate |].
  destruct (entry c es) as [child |] eqn:He; [| discriminate].
  simpl. apply in_flat_map. exists (c, child). split; [apply entry_In, He |].
  cbn [fst snd]. destruct rest as [| c' rest'].
  - left. reflexivity.
  - right. change (prefix ++ c :: c' :: rest') with (prefix ++ [c] ++ c' :: rest').
    rewrite app_assoc. eapply IH; [discriminate | exact Hl].
Qed.

Lemma node_rect_entries (P : node -> Prop) :
  (forall content, P (File content)) ->
  (forall es, Forall (fun e => P (snd e)) es -> P (Dir es)) ->
  forall n, P n.
Proof.
  intros Hfile Hdir. fix IH 1. intros [content | es]; [apply Hfile | apply Hdir].
  induction es as [| [nm child] es IHes]; constructor; [apply IH | exact IHes].
Qed.

Lemma walk_below : forall n prefix p,
  In p (walk prefix n) -> exists rest, rest <> [] /\ p = prefix ++ rest.
Proof.
  induction n as [content | es IH] using node_rect_entries; intros prefix p;
    simpl; [tauto |].
  induction IH as [| [nm child] es Hchild _ IHes]; simpl; [tauto |].
  intros [<- | Hin].
  - exists [nm]. split; [discriminate | reflexivity].
  - apply in_app_or in Hin as [Hin | Hin]; [| apply IHes, Hin].
    apply Hchild in Hin as (rest & Hne & ->).
    exists (nm :: rest). split; [discriminate |].
    rewrite <- app_assoc. reflexivity.
Qed.

(** X6. [list_csv_files] returns the paths below the folder whose last
    component ends in .csv: the listing is the sorted rearrangement of
    what the recursive walk matches, every listed path lies strictly
    below the folder and ends in .csv, every such path that leads to a
    file or folder of the tree is listed, and a folder that does not
    exist gives the empty listing. *)
Theorem list_csv_files_is_the_sorted_match :
  forall (fs : node) (data_folder : path),
    Permutation (list_csv_files fs data_folder)
                (rglob fs data_folder IngestionConfig.FILE_EXTENSION)
    /\ Sorted path_le (list_csv_files fs data_folder)
    /\ Forall (fun p => Str.endswith (name p) ".csv" = true
                        /\ exists rest, rest <> [] /\ p = data_folder ++ rest)
              (list_csv_files fs data_folder)
    /\ (forall rest x,
          rest <> [] ->
          lookup_path (data_folder ++ rest) fs = Some x ->
          Str.endswith (name (data_folder ++ rest)) ".csv" = true ->
          In (data_folder ++ rest) (list_csv_files fs data_folder))
    /\ (lookup_path data_folder fs = None -> list_csv_files fs data_folder = []).
Proof.
  intros fs data_folder.
  assert (Hperm : Permutation (list_csv_files fs data_folder)
                    (rglob fs data_folder IngestionConfig.FILE_EXTENSION))
    by apply sorted_perm.
  split; [exact Hperm |].
  split; [apply sorted_Sorted, path_leb_total |].
  split; [| split].
  - apply Forall_forall. intros p Hp. rewrite list_elem_of_In in Hp.
    apply (Permutation_in _ Hperm) in Hp. unfold rglob in Hp.
    destruct (lookup_path data_folder fs) as [n |]; [| destruct Hp].
    apply filter_In in Hp as [Hw He]. split; [exact He |].
    apply walk_below in Hw. exact Hw.
  - intros rest x Hne Hl He.
    apply (Permutation_in _ (Permutation_sym Hperm)). unfold rglob.
    rewrite lookup_path_app in Hl.
    destruct (lookup_path data_folder fs) as [n |]; [| discriminate].
    apply filter_In. split; [| exact He].
    eapply walk_complete; [exact Hne | exact Hl].
  - intros Hnone. unfold list_csv_files, rglob. rewrite Hnone. reflexivity.
Qed.

(** ** Table names *)

Lemma all_dots_prefix base s :
  Str.all_dots (substring 0 (String.length base) (base +:+ s)) = Str.all_dots base.
Proof. rewrite substring_prefix. reflexivity. Qed.

(** X7. Both flows name the table of a file base.csv by its base: when
    [base] holds a character other than a dot, [os.path.splitext] in the
    multi-folder flow and [Path.stem] in the recursive flow both give
    [base], whatever folder the file sits in. *)
Theorem both_flows_name_the_table_by_the_base :
  forall (dir : path) (base : string),
    Str.all_dots base = false ->
    splitext_root (base +:+ ".csv") = base
    /\ stem (dir ++ [base +:+ ".csv"]) = base.
Proof.
  intros dir base Hdots. split.
  - unfold splitext_root. rewrite rfind_dot_csv, all_dots_prefix, Hdots.
    apply substring_prefix.
  - apply stem_csv. intros ->. discriminate.
Qed.

Lemma both_flows_name_the_table_by_the_base_witness :
  splitext_root ("sales.2024" +:+ ".csv") = "sales.2024"
  /\ stem (["data"; "north"] ++ ["sales.2024" +:+ ".csv"]) = "sales.2024".
Proof.
  apply (both_flows_name_the_table_by_the_base ["data"; "north"] "sales.2024").
  reflexivity.
Defined.

(** ** Header clean-up *)

Section Trimming.
Variable p : ascii -> bool.

(** A list that does not start with a character [p] accepts. *)
Let head_kept (l : list ascii) : Prop :=
  match l with
  | [] => True
  | c :: _ => p c = false
  end.

Lemma drop_while_head l : head_kept (Str.drop_while p l).
Proof.
  induction l as [| c l IH]; simpl; [exact I |].
  destruct (p c) eqn:E; [exact IH | exact E].
Qed.

Lemma drop_while_kept l : head_kept l -> Str.drop_while p l = l.
Proof. destruct l as [| c l]; simpl; [reflexivity | intros ->; reflexivity]. Qed.

Lemma drop_while_suffix l : exists k, l = k ++ Str.drop_while p l.
Proof.
  induction l as [| c l [k IH]]; simpl; [exists []; reflexivity |].
  destruct (p c).
  - exists (c :: k). simpl. rewrite <- IH. reflexivity.
  - exists []. reflexivity.
Qed.

Lemma trimmed_head l :
  head_kept l -> head_kept (rev (Str.drop_while p (rev l))).
Proof.
  intros Hl. destruct (drop_while_suffix (rev l)) as [k Hk].
  apply (f_equal (@rev ascii)) in Hk. rewrite rev_involutive, rev_app_distr in Hk.
  destruct (rev (Str.drop_while p (rev l))) as [| c t]; [exact I |].
  rewrite Hk in Hl. exact Hl.
Qed.

Lemma strip_chars_trimmed l :
  let s := rev (Str.drop_while p (rev (Str.drop_while p l))) in
  head_kept s /\ head_kept (rev s).
Proof.
  cbv zeta. split.
  - apply trimmed_head, drop_while_head.
  - rewrite rev_involutive. apply drop_while_head.
Qed.

Lemma strip_chars_fixed l :
  head_kept l -> head_kept (rev l) ->
  rev (Str.drop_while p (rev (Str.drop_while p l))) = l.
Proof.
  intros H1 H2. rewrite (drop_while_kept l H1), (drop_while_kept _ H2).
  apply rev_involutive.
Qed.

Lemma head_kept_map (f : ascii -> ascii) l :
  (forall c, p c = false -> p (f c) = false) ->
  head_kept l -> head_kept (map f l).
Proof. intros Hf. destruct l as [| c l]; simpl; [auto | apply Hf]. Qed.

End Trimming.

Lemma underscore_blank_not_blank c : underscore_blank c <> " "%char.
Proof.
  unfold underscore_blank. destruct (Ascii.eqb_spec c " "%char); [discriminate | assumption].
Qed.

Lemma underscore_blank_twice c : underscore_blank (underscore_blank c) = underscore_blank c.
Proof.
  unfold underscore_blank. destruct (Ascii.eqb c " "%char) eqn:E; [reflexivity |].
  rewrite E. reflexivity.
Qed.

Lemma underscore_blank_keeps_non_space c :
  Str.is_space c = false -> Str.is_space (underscore_blank c) = false.
Proof.
  intros H. unfold underscore_blank.
  destruct (Ascii.eqb_spec c " "%char) as [-> | _]; [discriminate | exact H].
Qed.

Lemma chars_of_chars l : Str.chars (Str.of_chars l) = l.
Proof. apply list_ascii_of_string_of_list_ascii. Qed.

Lemma sanitize_chars c :
  Str.chars (sanitize c)
  = map underscore_blank
        (rev (Str.drop_while Str.is_space
                (rev (Str.drop_while Str.is_space (Str.chars c))))).
Proof.
  unfold sanitize, Str.replace_space, Str.strip, Str.strip_with.
  rewrite !chars_of_chars. reflexivity.
Qed.

(** X8. The header clean-up [c.strip().replace(" ", "_")] of both
    loaders gives a name without a blank and without white space at
    either end, and cleaning a cleaned name changes nothing. *)
Theorem sanitize_is_idempotent_and_blank_free :
  forall c : string,
    Forall (fun a => a <> " "%char) (Str.chars (sanitize c))
    /\ Str.strip (sanitize c) = sanitize c
    /\ sanitize (sanitize c) = sanitize c.
Proof.
  intros c.
  pose proof (sanitize_chars c) as Hc.
  set (s := rev (Str.drop_while Str.is_space
                   (rev (Str.drop_while Str.is_space (Str.chars c))))) in Hc.
  destruct (strip_chars_trimmed Str.is_space (Str.chars c)) as [Hh Ht].
  fold s in Hh, Ht.
  assert (Hstrip : Str.strip (sanitize c) = sanitize c).
  { unfold Str.strip, Str.strip_with. rewrite Hc, strip_chars_fixed.
    - rewrite <- Hc. apply string_of_list_ascii_of_string.
    - apply head_kept_map; [apply underscore_blank_keeps_non_space | exact Hh].
    - rewrite <- map_rev.
      apply head_kept_map; [apply underscore_blank_keeps_non_space | exact Ht]. }
  split; [| split; [exact Hstrip |]].
  - rewrite Hc. apply Forall_forall. intros a Ha.
    apply list_elem_of_In, in_map_iff in Ha as (b & <- & _).
    apply underscore_blank_not_blank.
  - unfold sanitize at 1. rewrite Hstrip.
    change (Str.of_chars (map underscore_blank (Str.chars (sanitize c))) = sanitize c).
    rewrite Hc, map_map.
    rewrite (map_ext _ underscore_blank) by apply underscore_blank_twice.
    rewrite <- Hc. apply string_of_list_ascii_of_string.
Qed.

(** ** What a whole run commits *)

Lemma main_state fs folders file_extension column_types w :
  let p := plan_main fs folders file_extension column_types in
  let w' := snd (main fs folders file_extension column_types w) in
  fst (main fs folders file_extension column_types w) = fst p
  /\ durable w' = (if is_ok (fst p) then apply_all (snd p) (durable w) else durable w)
  /\ working w' = durable w'
  /\ commits w' = (if is_ok (fst p) then S (S (commits w)) else commits w)
  /\ cursor_closed w' = true /\ conn_closed w' = true.
Proof.
  cbv zeta. unfold main, plan_main.
  set (ps := map _ folders).
  pose proof (tracks_for_each
                (fun folder => ingest_folder fs folder file_extension column_types)
                (fun folder => plan_ingest_folder fs folder file_extension column_types)
                folders
                (fun folder => tracks_ingest_folder fs folder file_extension column_types))
    as Ht.
  fold ps in Ht.
  rewrite bind_run, logging_run, bind_run.
  set (w1 := with_db (working w) _ w).
  destruct (Ht (snd (connect false w1)) eq_refl) as [lg Hlg].
  destruct (fst (plan_seq ps)) as [[] | e];
    (erewrite get_db_connection_run;
       [| rewrite bind_run, Hlg; unfold commit; reflexivity]);
    repeat split; reflexivity.
Qed.

(** X9. The multi-folder run ends with the cursor and the connection
    closed and nothing left uncommitted in the transaction; a run that
    returns has issued two commits, the explicit one after the last
    folder and the one of the scope, and a run that raises has issued
    none and leaves the committed store as it found it. *)
Theorem main_commits_twice_or_not_at_all :
  forall (fs : node) (folders : list path) (file_extension : string)
         (column_types : option (list string)) (w : world),
    let r := fst (main fs folders file_extension column_types w) in
    let w' := snd (main fs folders file_extension column_types w) in
    match r with
    | Ok _ => commits w' = S (S (commits w))
    | Raise _ => commits w' = commits w /\ durable w' = durable w
    end
    /\ working w' = durable w'
    /\ cursor_closed w' = true /\ conn_closed w' = true.
Proof.
  intros fs folders file_extension column_types w. cbv zeta.
  destruct (main_state fs folders file_extension column_types w)
    as (Hr & Hd & Hw & Hc & Hcc & Hnc).
  cbv zeta in *. rewrite Hr.
  destruct (fst (plan_main fs folders file_extension column_types)) as [[] | e];
    cbn [is_ok] in *; repeat split; assumption.
Qed.

Lemma ingest_all_state fs data_folder column_types w f files :
  list_csv_files fs data_folder = f :: files ->
  let p := plan_ingest_all fs data_folder column_types in
  let w' := snd (ingest_all fs data_folder column_types w) in
  fst (ingest_all fs data_folder column_types w) = fst p
  /\ durable w' = (if is_ok (fst p) then apply_all (snd p) (durable w) else durable w)
  /\ working w' = durable w'
  /\ commits w' = (if is_ok (fst p) then S (commits w) else commits w)
  /\ cursor_closed w' = true /\ conn_closed w' = true.
Proof.
  intros Hfiles. cbv zeta. unfold ingest_all, plan_ingest_all.
  pose proof (tracks_for_each
                (fun file_path =>
                   ingest_file fs file_path (stem file_path)
                               IngestionConfig.CHUNK_SIZE column_types)
                (fun file_path =>
                   plan_ingest_file fs file_path (stem file_path)
                                    IngestionConfig.CHUNK_SIZE column_types)
                (list_csv_files fs data_folder)
                (fun file_path => tracks_ingest_file fs file_path _ _ column_types))
    as Ht.
  rewrite Hfiles in *.
  set (ps := map _ (f :: files)) in *.
  rewrite bind_run.
  destruct (Ht (snd (connect false w)) eq_refl) as [lg Hlg].
  erewrite get_db_connection_run; [| exact Hlg].
  destruct (fst (plan_seq ps)) as [[] | e]; repeat split; reflexivity.
Qed.

(** X10. The recursive run opens no connection when it finds no file:
    it returns having written one warning and nothing else.  When it
    finds files it ends with the cursor and the connection closed; it has
    then issued one commit if it returns, and none if it raises, in which
    case the committed store is as it found it. *)
Theorem ingest_all_commits_once_or_not_at_all :
  forall (fs : node) (data_folder : path) (column_types : option (list string))
         (w : world),
    let r := fst (ingest_all fs data_folder column_types w) in
    let w' := snd (ingest_all fs data_folder column_types w) in
    match list_csv_files fs data_folder with
    | [] =>
        r = Ok tt
        /\ w' = with_db (working w)
                  [(LvlWarning, "No CSV files under `" +:+ path_str data_folder +:+ "`")] w
    | _ :: _ =>
        match r with
        | Ok _ => commits w' = S (commits w)
        | Raise _ => commits w' = commits w /\ durable w' = durable w
        end
        /\ working w' = durable w'
        /\ cursor_closed w' = true /\ conn_closed w' = true
    end.
Proof.
  intros fs data_folder column_types w. cbv zeta.
  destruct (list_csv_files fs data_folder) as [| f files] eqn:Hfiles.
  - unfold ingest_all. rewrite Hfiles. split; reflexivity.
  - destruct (ingest_all_state fs data_folder column_types w f files Hfiles)
      as (Hr & Hd & Hw & Hc & Hcc & Hnc).
    cbv zeta in *. rewrite Hr.
    destruct (fst (plan_ingest_all fs data_folder column_types)) as [[] | e];
      cbn [is_ok] in *; repeat split; assumption.
Qed.

(** ** Folders that are not there *)

Lemma plan_seq_skip l1 l2 :
  plan_seq (l1 ++ (Ok tt, []) :: l2) = plan_seq (l1 ++ l2).
Proof.
  induction l1 as [| [[[] | e] us] l1 IH]; cbn [app plan_seq].
  - destruct (plan_seq l2). reflexivity.
  - rewrite IH. reflexivity.
  - reflexivity.
Qed.

(** X11. A listed folder that is not a directory is skipped: the run
    over the folder list returns or raises exactly as the run over the
    list without that folder does, and commits the same store. *)
Theorem missing_folder_is_skipped :
  forall (fs : node) (before after : list path) (folder : path) (file_extension : string)
         (column_types : option (list string)) (w : world),
    isdir fs folder = false ->
    fst (main fs (before ++ folder :: after) file_extension column_types w)
    = fst (main fs (before ++ after) file_extension column_types w)
    /\ durable (snd (main fs (before ++ folder :: after) file_extension column_types w))
       = durable (snd (main fs (before ++ after) file_extension column_types w)).
Proof.
  intros fs before after folder file_extension column_types w Hdir.
  destruct (main_run fs (before ++ folder :: after) file_extension column_types w)
    as [-> ->].
  destruct (main_run fs (before ++ after) file_extension column_types w) as [-> ->].
  assert (plan_main fs (before ++ folder :: after) file_extension column_types
          = plan_main fs (before ++ after) file_extension column_types) as ->.
  { unfold plan_main. rewrite !map_app. cbn [map].
    unfold plan_ingest_folder at 2. rewrite Hdir. cbn [negb].
    apply plan_seq_skip. }
  split; reflexivity.
Qed.

Lemma missing_folder_is_skipped_witness :
  fst (main two_stock_files ([["data"; "east"]] ++ ["logs"] :: [["data"; "west"]])
            ".csv" None empty_world)
  = fst (main two_stock_files ([["data"; "east"]] ++ [["data"; "west"]])
              ".csv" None empty_world)
  /\ durable (snd (main two_stock_files
                        ([["data"; "east"]] ++ ["logs"] :: [["data"; "west"]])
                        ".csv" None empty_world))
     = durable (snd (main two_stock_files ([["data"; "east"]] ++ [["data"; "west"]])
                          ".csv" None empty_world)).
Proof.
  apply (missing_folder_is_skipped two_stock_files [["data"; "east"]] [["data"; "west"]]
           ["logs"] ".csv" None empty_world).
  reflexivity.
Defined.

(** ** The table a load writes *)

Lemma plan_load_names t columns column_types chs :
  Forall (fun u => fst u = t) (snd (plan_load t columns column_types chs)).
Proof.
  unfold plan_load, plan_ensure_table.
  destruct (column_defs columns column_types) as [| x defs].
  - repeat constructor.
  - destruct (distinct _); repeat constructor.
Qed.

Lemma plan_ingest_table_from_csv_names fs folder fname column_types :
  Forall (fun u => fst u = splitext_root fname)
         (snd (plan_ingest_table_from_csv fs folder fname column_types)).
Proof.
  unfold plan_ingest_table_from_csv.
  destruct (getsize fs (folder ++ [fname])) as [size | e]; [| constructor].
  destruct (size =? 0); [constructor |].
  destruct (read_file fs (folder ++ [fname])) as [content | e]; [| constructor].
  apply plan_load_names.
Qed.

(** ** The batch size *)

Lemma plan_inserts_chunks_upto t defs cols n :
  0 < n -> forall fuel rows, length rows <= fuel ->
  fst (plan_inserts t defs cols (Csv.chunks_upto fuel n rows))
  = rows_outcome t defs cols rows.
Proof.
  intros Hn. induction fuel as [| fuel IH]; intros rows Hlen.
  - destruct rows; [reflexivity | simpl in Hlen; lia].
  - destruct rows as [| r rows]; [reflexivity |].
    set (ok := fun x : list string => length x =? length cols).
    assert (Hsplit : forallb ok (r :: rows)
                     = forallb ok (take n (r :: rows)) && forallb ok (drop n (r :: rows)))
      by (rewrite <- forallb_app, take_drop; reflexivity).
    cbn [Csv.chunks_upto plan_inserts].
    change (rows_outcome t defs cols (r :: rows))
      with (if bool_decide (cols = map fst defs)
            then if forallb ok (r :: rows) then Ok tt
                 else Raise (SinkError (WrongArity t))
            else @Raise unit (SinkError (InvalidColumns t))).
    fold ok. rewrite Hsplit.
    destruct (bool_decide (cols = map fst defs)) eqn:Hcols; [| reflexivity].
    destruct (forallb ok (take n (r :: rows))); [| reflexivity].
    cbn [fst andb]. rewrite IH by (rewrite length_drop; simpl in *; lia).
    unfold rows_outcome. rewrite Hcols. fold ok.
    destruct (drop n (r :: rows)); reflexivity.
Qed.

Lemma plan_ingest_file_outcome fs f t n n' column_types :
  0 < n -> 0 < n' ->
  fst (plan_ingest_file fs f t n column_types)
  = fst (plan_ingest_file fs f t n' column_types).
Proof.
  intros Hn Hn'. unfold plan_ingest_file.
  destruct (read_file fs f) as [content | e]; [| reflexivity].
  destruct (Csv.read_header content) as [header | e]; [| reflexivity].
  unfold plan_load.
  destruct (plan_ensure_table _ _ _) as [[[] | e] us]; [| reflexivity].
  cbn [fst]. unfold Csv.chunks.
  rewrite !plan_inserts_chunks_upto by (assumption || reflexivity). reflexivity.
Qed.

(** X14. Inside a transaction, the batch size (any size above 0)
    changes neither whether [ingest_file] returns or which exception it
    raises, nor, when it returns, the contents it leaves in the open
    transaction. *)
Theorem batch_size_does_not_change_the_load :
  forall (fs : node) (file_path : path) (table_name : string) (n n' : nat)
         (column_types : option (list string)) (w : world),
    0 < n -> 0 < n' ->
    autocommit w = false ->
    fst (ingest_file fs file_path table_name n column_types w)
    = fst (ingest_file fs file_path table_name n' column_types w)
    /\ match fst (ingest_file fs file_path table_name n column_types w) with
       | Ok _ =>
           working (snd (ingest_file fs file_path table_name n column_types w))
           = working (snd (ingest_file fs file_path table_name n' column_types w))
       | Raise _ => True
       end.
Proof.
  intros fs file_path table_name n n' column_types w Hn Hn' Hac.
  destruct (tracks_ingest_file fs file_path table_name n column_types w Hac) as [lg H].
  destruct (tracks_ingest_file fs file_path table_name n' column_types w Hac) as [lg' H'].
  rewrite H, H'. cbn [fst snd working with_db].
  pose proof (plan_ingest_file_outcome fs file_path table_name n n' column_types Hn Hn')
    as Hout.
  split; [exact Hout |].
  destruct (fst (plan_ingest_file fs file_path table_name n column_types))
    as [[] | e] eqn:Hr; [| exact I].
  destruct (plan_ingest_file_ok fs file_path table_name n column_types Hn Hr)
    as (content & Hread & ->).
  symmetry in Hout.
  destruct (plan_ingest_file_ok fs file_path table_name n' column_types Hn' Hout)
    as (content' & Hread' & ->).
  congruence.
Qed.

Lemma batch_size_does_not_change_the_load_witness :
  fst (ingest_file two_stock_files ["data"; "west"; "stock.csv"] "stock" 1 None empty_world)
  = fst (ingest_file two_stock_files ["data"; "west"; "stock.csv"] "stock" 5 None
           empty_world)
  /\ match fst (ingest_file two_stock_files ["data"; "west"; "stock.csv"] "stock" 1 None
                  empty_world) with
     | Ok _ =>
         working (snd (ingest_file two_stock_files ["data"; "west"; "stock.csv"] "stock" 1
                         None empty_world))
         = working (snd (ingest_file two_stock_files ["data"; "west"; "stock.csv"] "stock" 5
                           None empty_world))
     | Raise _ => True
     end.
Proof.
  apply (batch_size_does_not_change_the_load two_stock_files
           ["data"; "west"; "stock.csv"] "stock" 1 5 None empty_world).
  - lia.
  - lia.
  - reflexivity.
Defined.

(** ** More on the aggregation query *)

Section GroupMembers.
Context {K A : Type} `{EqDecision K}.
Variable key : A -> K.

(** Every group holds at least one row, and only rows of its key. *)
Let well_grouped (l : list A) (gs : list (K * list A)) : Prop :=
  Forall (fun g => snd g <> [] /\ Forall (fun a => In a l /\ key a = fst g) (snd g)) gs.

Lemma group_insert_members l a gs :
  In a l -> well_grouped l gs -> well_grouped l (Sql.group_insert (key a) a gs).
Proof.
  intros Ha. induction 1 as [| [k ms] gs [Hne Hms] Hgs IH]; simpl.
  - repeat constructor; [discriminate | exact Ha].
  - destruct (decide (key a = k)) as [He | _].
    + constructor; [| exact Hgs]. cbn [fst snd] in *. split.
      * destruct ms; discriminate.
      * apply Forall_app. split; [exact Hms |]. repeat constructor; assumption.
    + constructor; [split; assumption | exact IH].
Qed.

Lemma group_by_members l : well_grouped l (Sql.group_by key l).
Proof.
  unfold Sql.group_by.
  assert (forall l' gs, (forall a, In a l' -> In a l) -> well_grouped l gs ->
            well_grouped l (fold_left (fun gs a => Sql.group_insert (key a) a gs) l' gs))
    as Hgen.
  { induction l' as [| a l' IH]; intros gs Hsub Hgs; [exact Hgs |].
    simpl. apply IH; [intros; apply Hsub; right; assumption |].
    apply group_insert_members; [apply Hsub; left; reflexivity | exact Hgs]. }
  apply Hgen; [auto | constructor].
Qed.

Lemma group_by_witness l g :
  In g (Sql.group_by key l) -> exists a, In a l /\ key a = fst g.
Proof.
  intros Hg. pose proof (group_by_members l) as Hall.
  unfold well_grouped in Hall. rewrite Forall_forall in Hall.
  destruct (Hall g) as [Hne Hms]; [apply list_elem_of_In, Hg |].
  destruct (snd g) as [| a ms]; [congruence |].
  apply Forall_cons in Hms as [Ha _]. exists a. exact Ha.
Qed.

End GroupMembers.

Lemma purchase_where_true x :
  purchase_where x = true ->
  is_Some (Sql.try_cast_bigint (p_VendorNumber (fst x)))
  /\ is_Some (Sql.try_cast_bigint (p_Brand (fst x)))
  /\ exists q, Sql.try_cast_decimal (p_PurchasePrice (fst x)) = Some q /\ (0 < q)%Q.
Proof.
  unfold purchase_where. intros H.
  apply and3_true in H as [H Hprice]. apply and3_true in H as [Hv Hb].
  destruct (Sql.try_cast_bigint (p_VendorNumber (fst x))); [| discriminate].
  destruct (Sql.try_cast_bigint (p_Brand (fst x))); [| discriminate].
  destruct (Sql.try_cast_decimal (p_PurchasePrice (fst x))) as [q |]; [| discriminate].
  repeat split; try (eexists; reflexivity).
  exists q. split; [reflexivity |].
  cbn -[Qle_bool] in Hprice.
  destruct (Qle_bool q 0) eqn:E; [discriminate |].
  apply Qnot_le_lt. intros Hle. apply Qle_bool_iff in Hle. congruence.
Qed.

Lemma PurchaseSummary_keys ps pps row :
  In row (PurchaseSummary ps pps) ->
  is_Some (ps_VendorNumber row) /\ is_Some (ps_Brand row)
  /\ exists q, ps_PurchasePrice row = Some q /\ (0 < q)%Q.
Proof.
  unfold PurchaseSummary. intros Hrow.
  apply in_map_iff in Hrow as (g & <- & Hg).
  apply group_by_witness in Hg as (x & Hx & Hkey).
  apply filter_In in Hx as [_ Hwhere].
  apply purchase_where_true in Hwhere as (Hv & Hb & Hq).
  destruct g as [[[[[[[v nm] b] ds] pr] ac] vol] ms]. cbn [fst] in Hkey.
  unfold purchase_key in Hkey. injection Hkey as <- _ <- _ <- _ _.
  cbn. auto.
Qed.

(** X15. Every row the query returns has a vendor number and a brand
    that are not NULL and a purchase price above 0. *)
Theorem result_rows_have_keys_and_positive_price :
  forall stg : staging,
    exists df, QUERY stg = Ok df
      /\ Forall (fun r => is_Some (VendorNumber r) /\ is_Some (Brand r)
                          /\ exists q, PurchasePrice r = Some q /\ (0 < q)%Q) df.
Proof.
  intros stg. destruct (QUERY_selected stg) as (df & Hq & Hsel).
  exists df. split; [exact Hq |].
  eapply Forall2_Forall_r_In; [exact Hsel |].
  intros [[ps so] fo] r Hin (Hp & _). cbn [fst snd] in Hp.
  assert (In ps (PurchaseSummary (purchases stg) (purchase_prices stg))) as Hps.
  { eapply Permutation_in; [apply joined_purchase_rows |].
    apply in_map_iff. exists (ps, so, fo). split; [reflexivity | exact Hin]. }
  apply PurchaseSummary_keys in Hps. rewrite <- Hp in Hps. exact Hps.
Qed.

Lemma inner_join_unmatched_left pps l1 p l2 :
  Forall (fun pp => pp_Brand pp <> p_Brand p) pps ->
  Sql.inner_join purchase_on (l1 ++ p :: l2) pps
  = Sql.inner_join purchase_on (l1 ++ l2) pps.
Proof.
  intros Hno. unfold Sql.inner_join.
  rewrite !flat_map_app. cbn [flat_map]. f_equal.
  assert (List.filter (fun b => Sql.is_true (purchase_on p b)) pps = []) as ->;
    [| reflexivity].
  induction Hno as [| pp pps Hpp _ IH]; [reflexivity |].
  cbn [List.filter]. rewrite IH. unfold purchase_on. cbn [Sql.is_true].
  destruct (String.eqb_spec (p_Brand p) (pp_Brand pp)); [congruence | reflexivity].
Qed.

(** X16. A purchases row whose Brand the sink can equate with the
    Brand of no purchase_prices row, blanks at the end and letter case
    disregarded, is dropped by the inner join: with or without it,
    PurchaseSummary and the query result are the same, however well its
    own cells coerce. *)
Theorem purchase_without_price_row_is_dropped :
  forall (vi : list vendor_invoice_row) (l1 l2 : list purchases_row) (p : purchases_row)
         (pps : list purchase_prices_row) (ss : list sales_row),
    Forall (fun pp => compared_text (pp_Brand pp) <> compared_text (p_Brand p)) pps ->
    PurchaseSummary (l1 ++ p :: l2) pps = PurchaseSummary (l1 ++ l2) pps
    /\ QUERY (MkStaging vi (l1 ++ p :: l2) pps ss) = QUERY (MkStaging vi (l1 ++ l2) pps ss).
Proof.
  intros vi l1 l2 p pps ss Hno.
  assert (Forall (fun pp => pp_Brand pp <> p_Brand p) pps) as Hne.
  { eapply Forall_impl; [exact Hno |]. cbn beta. intros pp Hpp He. apply Hpp.
    rewrite He. reflexivity. }
  assert (PurchaseSummary (l1 ++ p :: l2) pps = PurchaseSummary (l1 ++ l2) pps) as Hps.
  { unfold PurchaseSummary. rewrite (inner_join_unmatched_left pps l1 p l2 Hne). reflexivity. }
  split; [exact Hps |].
  unfold QUERY, joined. cbn [purchases purchase_prices sales vendor_invoice].
  rewrite Hps. reflexivity.
Qed.

Lemma purchase_without_price_row_is_dropped_witness :
  let p := MkPurchase "1" "Acme" "100" "Widget" "10.00" "5" "50.00" in
  PurchaseSummary ([] ++ p :: []) [MkPurchasePrice "200" "1.00" "750"]
  = PurchaseSummary ([] ++ []) [MkPurchasePrice "200" "1.00" "750"]
  /\ QUERY (MkStaging [] ([] ++ p :: []) [MkPurchasePrice "200" "1.00" "750"] [])
     = QUERY (MkStaging [] ([] ++ []) [MkPurchasePrice "200" "1.00" "750"] []).
Proof.
  cbv zeta.
  apply (purchase_without_price_row_is_dropped [] [] []
           (MkPurchase "1" "Acme" "100" "Widget" "10.00" "5" "50.00")
           [MkPurchasePrice "200" "1.00" "750"] []).
  repeat constructor. vm_compute. discriminate.
Defined.

Lemma left_join_In_None {L R} (on : L -> R -> option bool) l r a :
  In (a, None) (Sql.left_join on l r) ->
  forall b, In b r -> Sql.is_true (on a b) = false.
Proof.
  unfold Sql.left_join. rewrite in_flat_map. intros (a' & _ & Hin) b Hb.
  destruct (List.filter _ r) as [| b' ms] eqn:E.
  - destruct Hin as [[= <-] | []].
    destruct (Sql.is_true (on a' b)) eqn:Hon; [| reflexivity].
    assert (In b (List.filter (fun b => Sql.is_true (on a' b)) r)) as Hf
      by (apply filter_In; auto).
    rewrite E in Hf. destruct Hf.
  - assert (In (a, None) (map (fun b => (a', Some b)) (b' :: ms))) as Hin' by exact Hin.
    apply in_map_iff in Hin' as (x & [=] & _).
Qed.

Lemma NoDup_map_eq {A B} (f : A -> B) l x y :
  NoDup (map f l) -> In x l -> In y l -> f x = f y -> x = y.
Proof.
  induction l as [| a l IH]; simpl; [tauto |].
  intros Hnd Hx Hy Hf. apply NoDup_cons in Hnd as [Ha Hnd].
  rewrite list_elem_of_In in Ha.
  destruct Hx as [-> | Hx], Hy as [-> | Hy]; auto.
  - exfalso. apply Ha. rewrite Hf. apply in_map, Hy.
  - exfalso. apply Ha. rewrite <- Hf. apply in_map, Hx.
Qed.

Lemma Forall2_In_r {A B} (P : A -> B -> Prop) l l' y :
  Forall2 P l l' -> In y l' -> exists x, In x l /\ P x y.
Proof.
  induction 1 as [| x y' l l' Hxy _ IH]; simpl; [tauto |].
  intros [<- | Hy]; [exists x; auto |].
  destruct (IH Hy) as (x' & Hx' & HP). exists x'. auto.
Qed.

Lemma joined_matches stg ps so fo :
  In (ps, so, fo) (joined stg) ->
  match so with
  | Some ss => In ss (SalesSummary (sales stg)) /\ Sql.is_true (sales_on ps ss) = true
  | None => forall ss, In ss (SalesSummary (sales stg)) -> Sql.is_true (sales_on ps ss) = false
  end
  /\ match fo with
     | Some fs => In fs (FreightSummary (vendor_invoice stg))
                  /\ Sql.is_true (freight_on (ps, so) fs) = true
     | None => forall fs, In fs (FreightSummary (vendor_invoice stg)) ->
                          Sql.is_true (freight_on (ps, so) fs) = false
     end.
Proof.
  unfold joined, Sql.order_by_desc. intros Hin.
  eapply Permutation_in in Hin; [| apply sorted_perm].
  split.
  - apply left_join_In in Hin as [Hx _].
    destruct so as [ss |].
    + apply left_join_In in Hx as [_ Hs]. exact Hs.
    + eapply left_join_In_None. exact Hx.
  - destruct fo as [fs |].
    + apply left_join_In in Hin as [_ Hf]. exact Hf.
    + eapply left_join_In_None. exact Hin.
Qed.

Lemma joined_freight_by_vendor stg ps1 so1 fo1 ps2 so2 fo2 :
  In (ps1, so1, fo1) (joined stg) -> In (ps2, so2, fo2) (joined stg) ->
  ps_VendorNumber ps1 = ps_VendorNumber ps2 -> fo1 = fo2.
Proof.
  intros H1 H2 Hv.
  apply joined_matches in H1 as [_ H1]. apply joined_matches in H2 as [_ H2].
  unfold freight_on in *. cbn [fst] in *. rewrite Hv in H1.
  destruct fo1 as [f1 |], fo2 as [f2 |]; [| | | reflexivity].
  - destruct H1 as [Hin1 Hon1], H2 as [Hin2 Hon2].
    apply eqZ_true in Hon1, Hon2. f_equal.
    eapply NoDup_map_eq; [apply FreightSummary_keys_NoDup | eassumption .. | congruence].
  - destruct H1 as [Hin1 Hon1]. rewrite (H2 f1 Hin1) in Hon1. discriminate.
  - destruct H2 as [Hin2 Hon2]. rewrite (H1 f2 Hin2) in Hon2. discriminate.
Qed.

Lemma joined_sales_by_vendor_brand stg ps1 so1 fo1 ps2 so2 fo2 :
  In (ps1, so1, fo1) (joined stg) -> In (ps2, so2, fo2) (joined stg) ->
  ps_VendorNumber ps1 = ps_VendorNumber ps2 -> ps_Brand ps1 = ps_Brand ps2 -> so1 = so2.
Proof.
  intros H1 H2 Hv Hb.
  apply joined_matches in H1 as [H1 _]. apply joined_matches in H2 as [H2 _].
  assert (forall ss, sales_on ps1 ss = sales_on ps2 ss) as Hon
    by (intros ss; unfold sales_on; rewrite Hv, Hb; reflexivity).
  destruct so1 as [s1 |], so2 as [s2 |]; [| | | reflexivity].
  - destruct H1 as [Hin1 Hon1], H2 as [Hin2 Hon2].
    apply sales_on_key in Hon1, Hon2. f_equal.
    eapply (NoDup_map_eq (fun ss => (ss_VendorNumber ss, ss_Brand ss)));
      [apply SalesSummary_keys_NoDup | eassumption .. | congruence].
  - destruct H1 as [Hin1 Hon1]. rewrite Hon, (H2 s1 Hin1) in Hon1. discriminate.
  - destruct H2 as [Hin2 Hon2]. rewrite <- Hon, (H1 s2 Hin2) in Hon2. discriminate.
Qed.

(** X17. Freight is joined by vendor alone and sales by vendor and
    brand: two result rows of the same vendor carry the same FreightCost
    (the vendor's whole freight on each of them), and if they are also of
    the same brand they carry the same four sales totals. *)
Theorem freight_and_sales_totals_repeat_per_key :
  forall stg : staging,
    exists df, QUERY stg = Ok df
      /\ forall r1 r2,
           In r1 df -> In r2 df ->
           VendorNumber r1 = VendorNumber r2 ->
           FreightCost r1 = FreightCost r2
           /\ (Brand r1 = Brand r2 ->
               TotalSalesQuantity r1 = TotalSalesQuantity r2
               /\ TotalSalesDollars r1 = TotalSalesDollars r2
               /\ TotalSalesPrice r1 = TotalSalesPrice r2
               /\ TotalExciseTax r1 = TotalExciseTax r2).
Proof.
  intros stg. destruct (QUERY_selected stg) as (df & Hq & Hsel).
  exists df. split; [exact Hq |].
  intros r1 r2 Hr1 Hr2 Hv.
  destruct (Forall2_In_r _ _ _ _ Hsel Hr1)
    as ([[ps1 so1] fo1] & Hj1 & Hp1 & Hq1 & Hd1 & Hsp1 & Het1 & Hfc1 & _).
  destruct (Forall2_In_r _ _ _ _ Hsel Hr2)
    as ([[ps2 so2] fo2] & Hj2 & Hp2 & Hq2 & Hd2 & Hsp2 & Het2 & Hfc2 & _).
  cbn [fst snd] in *.
  assert (ps_VendorNumber ps1 = ps_VendorNumber ps2) as Hpv
    by (rewrite <- Hp1, <- Hp2; exact Hv).
  split.
  - rewrite Hfc1, Hfc2.
    rewrite (joined_freight_by_vendor stg _ _ _ _ _ _ Hj1 Hj2 Hpv). reflexivity.
  - intros Hb.
    assert (ps_Brand ps1 = ps_Brand ps2) as Hpb by (rewrite <- Hp1, <- Hp2; exact Hb).
    rewrite Hq1, Hq2, Hd1, Hd2, Hsp1, Hsp2, Het1, Het2.
    rewrite (joined_sales_by_vendor_brand stg _ _ _ _ _ _ Hj1 Hj2 Hpv Hpb).
    repeat split; reflexivity.
Qed.

(** ** Storing the summary *)

Section Storing.
Import Store.
Variable show : value -> string.

Lemma P_bind_run {A B} (m : P A) (k : A -> P B) w :
  (m ≫= k) w = match m w with
               | Some (Ok a, w') => k a w'
               | Some (Raise e, w') => Some (Raise e, w')
               | None => None
               end.
Proof. reflexivity. Qed.

Lemma with_db_connection_run {A} (body : P A) w rb wb :
  body (snd (connect false w)) = Some (rb, wb) ->
  with_db_connection false body w
  = Some (match rb with Ok _ => Ok tt | Raise e => Raise e end,
          World (if is_ok rb then working wb else durable wb)
                (if is_ok rb then working wb else durable wb)
                (autocommit wb)
                (if is_ok rb then S (commits wb) else commits wb)
                true true (logs wb)).
Proof.
  intros Hb. unfold with_db_connection, try_finally_P. rewrite P_bind_run.
  change (ran (connect false) w) with (Some (Ok tt, snd (connect false w))).
  cbv iota beta. rewrite P_bind_run, Hb. destruct rb; reflexivity.
Qed.

Lemma summary_schema_accepted t :
  plan_ensure_table t columns (Some types)
  = (Ok tt, [(t, Some (Table (combine columns types) []))]).
Proof.
  unfold plan_ensure_table, column_defs.
  assert (distinct (map fst (combine columns types)) = true) as Hd
    by (vm_compute; reflexivity).
  rewrite Hd. reflexivity.
Qed.

Lemma parameters_arity batch :
  forallb (fun r => length r =? length columns) (parameters show batch) = true.
Proof. induction batch as [| r batch IH]; [reflexivity | exact IH]. Qed.

Lemma parameters_app l1 l2 :
  parameters show (l1 ++ l2) = parameters show l1 ++ parameters show l2.
Proof. apply map_app. Qed.

Lemma drop_taken {A} n (l : list A) : drop (length (take n l)) l = drop n l.
Proof. rewrite <- (take_drop n l) at 2. apply drop_app_length. Qed.

Lemma insert_while_run t defs df batch_size :
  0 < batch_size -> map fst defs = columns ->
  forall fuel inserted acc w,
    autocommit w = false ->
    length df - inserted <= fuel ->
    working w !! t = Some (Table defs acc) ->
    insert_while show fuel (InsertInto t columns) df batch_size inserted w
    = Some (Ok tt,
            with_db (<[t := Table defs (acc ++ parameters show (drop inserted df))]>
                       (working w)) [] w).
Proof.
  intros Hbs Hcols. induction fuel as [| fuel IH]; intros inserted acc w Hac Hfuel Ht.
  - assert ((inserted <? length df) = false) as Hdone by (apply Nat.ltb_ge; lia).
    cbn [insert_while]. rewrite Hdone.
    rewrite drop_ge by (apply Nat.ltb_ge in Hdone; lia).
    rewrite app_nil_r, (insert_id _ _ _ Ht), with_db_id. reflexivity.
  - cbn [insert_while]. destruct (inserted <? length df) eqn:Hlt.
    + apply Nat.ltb_lt in Hlt.
      set (batch := take batch_size (drop inserted df)).
      assert (0 < length batch) as Hbatch.
      { unfold batch. rewrite length_take, length_drop. lia. }
      cbv zeta. fold batch.
      rewrite P_bind_run. unfold ran at 1.
      rewrite executemany_run by exact Hac.
      unfold exec_many. rewrite Ht. cbn [tbl_cols tbl_rows]. rewrite Hcols.
      rewrite bool_decide_eq_true_2 by reflexivity.
      rewrite parameters_arity.
      rewrite (IH (inserted + length batch) (acc ++ parameters show batch)).
      * cbn [working with_db]. rewrite insert_insert_eq, with_db_with_db.
        rewrite <- app_assoc, <- parameters_app, <- drop_drop.
        subst batch. rewrite drop_taken, take_drop. reflexivity.
      * exact Hac.
      * lia.
      * cbn [working with_db]. apply lookup_insert_eq.
    + rewrite drop_ge by (apply Nat.ltb_ge in Hlt; lia).
      rewrite app_nil_r, (insert_id _ _ _ Ht), with_db_id. reflexivity.
Qed.

End Storing.

Section StoringRuns.
Import Store.
Variable show : value -> string.

Lemma cleaned_frame_query stg df :
  cleaned_frame stg = Ok df -> exists q, QUERY stg = Ok q /\ df = map fillna0 q.
Proof.
  unfold cleaned_frame. destruct (QUERY stg) as [q | e]; [| discriminate].
  intros [= <-]. exists q. split; reflexivity.
Qed.

Lemma ran_bind {A B} (m : M A) (k : A -> P B) w :
  (ran m ≫= k) w = match m w with
                   | (Ok a, w') => k a w'
                   | (Raise e, w') => Some (Raise e, w')
                   end.
Proof. unfold mbind, P_bind, ran. destruct (m w) as [[a | e] w']; reflexivity. Qed.

Lemma read_sql_query_run w stg :
  staging_of (working w) = Ok stg -> read_sql_query w = (QUERY stg, w).
Proof. intros H. unfold read_sql_query. rewrite H. reflexivity. Qed.

Lemma read_sql_query_unreadable w e :
  staging_of (working w) = Raise e -> read_sql_query w = (Raise e, w).
Proof. intros H. unfold read_sql_query. rewrite H. reflexivity. Qed.

Ltac step_log := rewrite ran_bind, logging_run; cbv iota beta; rewrite ?with_db_with_db.

(** The run of [aggregate_and_store] when the staging tables can be
    read. *)
Lemma aggregate_and_store_run fuel target_table batch_size elapsed w stg df :
  0 < batch_size ->
  staging_of (durable w) = Ok stg ->
  cleaned_frame stg = Ok df ->
  length df <= fuel ->
  exists lg,
    aggregate_and_store show fuel target_table batch_size elapsed w
    = Some (Ok tt,
            World (<[target_table := summary_table show df]> (durable w))
                  (<[target_table := summary_table show df]> (durable w))
                  false (S (S (commits w))) true true (logs w ++ lg)).
Proof.
  intros Hbs Hstg Hclean Hfuel.
  apply cleaned_frame_query in Hclean as (q & Hq & ->).
  unfold aggregate_and_store.
  lazymatch goal with
  | |- context [with_db_connection false ?b] => set (body := b)
  end.
  assert (Hbody : forall w0,
             autocommit w0 = false -> working w0 = durable w ->
             exists lg,
               body w0
               = Some (Ok tt,
                       World (<[target_table := summary_table show (map fillna0 q)]> (durable w))
                             (<[target_table := summary_table show (map fillna0 q)]> (durable w))
                             false (S (commits w0)) (cursor_closed w0) (conn_closed w0)
                             (logs w0 ++ lg))).
  { intros w0 Hac Hw0. subst body. cbv beta.
    step_log.
    rewrite ran_bind, (read_sql_query_run _ stg) by (cbn [working with_db]; congruence).
    rewrite Hq. cbv iota beta zeta.
    step_log. step_log.
    rewrite ran_bind.
    lazymatch goal with
    | |- context [ensure_table ?t ?c ?ty ?x] =>
        destruct (tracks_ensure_table t c ty x Hac) as [lg He]; rewrite He
    end.
    rewrite summary_schema_accepted. cbv iota beta. cbn [fst snd].
    rewrite with_db_with_db.
    step_log.
    rewrite P_bind_run.
    rewrite (insert_while_run show target_table (combine columns types)
               (map fillna0 q) batch_size Hbs eq_refl fuel 0 []);
      [| exact Hac | lia | apply lookup_insert_eq].
    cbn [working with_db apply_all fold_left set_table fst snd app drop].
    rewrite insert_insert_eq, with_db_with_db, Hw0.
    rewrite ran_bind. unfold commit. cbv iota beta.
    unfold ran. rewrite logging_run.
    eexists. unfold with_db. cbn. rewrite Hac, <- !app_assoc. reflexivity. }
  rewrite ran_bind, logging_run. cbv iota beta.
  destruct (Hbody (snd (connect false
                          (with_db (working w)
                             [(LvlInfo, "Starting aggregation and storage...")] w)))
              eq_refl eq_refl) as [lg Hlg].
  unfold try_except_logged.
  rewrite (with_db_connection_run _ _ _ _ Hlg).
  cbn. eexists. rewrite <- !app_assoc. reflexivity.
Qed.

Lemma aggregate_and_store_unreadable fuel target_table batch_size elapsed w e :
  staging_of (durable w) = Raise e ->
  aggregate_and_store show fuel target_table batch_size elapsed w
  = Some (Raise e,
          World (durable w) (durable w) false (commits w) true true
                (logs w ++ [(LvlInfo, "Starting aggregation and storage...");
                            (LvlInfo, "Executing aggregation query");
                            (LvlError, "Failed during aggregation/storage")])).
Proof.
  intros Hstg. unfold aggregate_and_store.
  rewrite ran_bind, logging_run. cbv iota beta.
  unfold try_except_logged.
  erewrite with_db_connection_run.
  2:{ rewrite ran_bind, logging_run. cbv iota beta.
      rewrite ran_bind, (read_sql_query_unreadable _ e) by exact Hstg.
      reflexivity. }
  cbn. rewrite <- !app_assoc. reflexivity.
Qed.

End StoringRuns.





Lemma staging_of_other_table t x (d : db) :
  ~ In t staging_names -> staging_of (<[t := x]> d) = staging_of d.
Proof.
  intros Hnot. unfold staging_of, read_table.
  rewrite !lookup_insert_ne; [reflexivity | ..];
    intros ->; apply Hnot; unfold staging_names; simpl; tauto.
Qed.



(** ** Entries of the same name in the multi-folder run *)

Lemma plan_seq_app l1 l2 :
  plan_seq (l1 ++ l2)
  = match plan_seq l1 with
    | (Ok _, us) => (fst (plan_seq l2), us ++ snd (plan_seq l2))
    | (Raise e, us) => (Raise e, us)
    end.
Proof.
  induction l1 as [| [[[] | e] us] l1 IH]; cbn [app plan_seq].
  - destruct (plan_seq l2). reflexivity.
  - rewrite IH. destruct (plan_seq l1) as [[[] | e] us1]; cbn [fst snd].
    + rewrite app_assoc. reflexivity.
    + reflexivity.
  - reflexivity.
Qed.

Lemma plan_main_visited fs folders file_extension column_types :
  plan_main fs folders file_extension column_types
  = plan_seq (map (fun j => plan_ingest_table_from_csv fs (fst j) (snd j) column_types)
                  (visited fs folders file_extension)).
Proof.
  unfold plan_main, visited.
  induction folders as [| folder folders IH]; [reflexivity |].
  cbn [map flat_map]. rewrite map_app, plan_seq_app, <- IH.
  unfold plan_ingest_folder at 1.
  destruct (negb (isdir fs folder)).
  - cbn [map plan_seq fst snd app]. destruct (plan_seq _) as [r us]. reflexivity.
  - rewrite map_map. cbn [fst snd].
    destruct (plan_seq (map _ (List.filter _ _))) as [[[] | e] us]; reflexivity.
Qed.

Lemma plan_ingest_table_from_csv_ok fs folder fname column_types :
  getsize fs (folder ++ [fname]) <> Ok 0 ->
  fst (plan_ingest_table_from_csv fs folder fname column_types) = Ok tt ->
  exists content,
    read_file fs (folder ++ [fname]) = Ok content
    /\ snd (plan_ingest_table_from_csv fs folder fname column_types)
       = [(splitext_root fname, Some (entry_table content column_types))].
Proof.
  unfold plan_ingest_table_from_csv. intros Hsize.
  destruct (getsize fs (folder ++ [fname])) as [size | e]; [| discriminate].
  destruct (size =? 0) eqn:Hz.
  { apply Nat.eqb_eq in Hz. subst size. contradiction. }
  destruct (read_file fs (folder ++ [fname])) as [content | e]; [| discriminate].
  unfold plan_load.
  destruct (plan_ensure_table _ _ _) as [[[] | e] us]; [| discriminate].
  cbn [fst snd]. intros H.
  rewrite (plan_inserts_ok _ _ _ _ H), chunks_concat by exact CHUNK_SIZE_pos.
  exists content. split; reflexivity.
Qed.

Lemma plan_ingest_table_from_csv_empty fs folder fname column_types :
  getsize fs (folder ++ [fname]) = Ok 0 ->
  plan_ingest_table_from_csv fs folder fname column_types = (Ok tt, []).
Proof. unfold plan_ingest_table_from_csv. intros ->. reflexivity. Qed.

Lemma later_entries_leave_table fs column_types k after :
  (forall j, In j after ->
             splitext_root (snd j) = k -> getsize fs (fst j ++ [snd j]) = Ok 0) ->
  assigned k
    (concat (map snd
       (map (fun j => plan_ingest_table_from_csv fs (fst j) (snd j) column_types) after)))
  = None.
Proof.
  induction after as [| j after IH]; [reflexivity |].
  cbn [map concat]. intros Hafter.
  rewrite assigned_app, IH by (intros; apply Hafter; [right |]; assumption).
  destruct (decide (splitext_root (snd j) = k)) as [He | Hne].
  - rewrite plan_ingest_table_from_csv_empty
      by (apply Hafter; [left; reflexivity | exact He]).
    reflexivity.
  - apply assigned_none.
    eapply Forall_impl; [apply plan_ingest_table_from_csv_names |].
    cbn beta. intros u ->. exact Hne.
Qed.



Example empty_west_stock_keeps_east_stock :
  visited stock_then_empty [["data"; "east"]; ["data"; "west"]] ".csv"
  = [(["data"; "east"], "stock.csv"); (["data"; "west"], "stock.csv")]
  /\ durable (snd (main stock_then_empty [["data"; "east"]; ["data"; "west"]]
                        ".csv" None empty_world)) !! "stock"
     = Some (Table [("sku", "VARCHAR(MAX) NULL"); ("on_hand", "VARCHAR(MAX) NULL")]
                   [["A-1"; "10"]]).
Proof. split; vm_compute; reflexivity. Qed.

(** ** The extension test of the multi-folder run *)

Lemma lower_app s s' : Str.lower (s +:+ s') = Str.lower s +:+ Str.lower s'.
Proof.
  induction s as [| c s IH]; [reflexivity |].
  change (Str.lower (String c (s +:+ s'))
          = String (Str.lower_char c) (Str.lower s +:+ Str.lower s')).
  rewrite <- IH. reflexivity.
Qed.

Lemma substring_all s : substring 0 (String.length s) s = s.
Proof. induction s as [| c s IH]; simpl; [reflexivity | rewrite IH; reflexivity]. Qed.

Lemma substring_suffix s s' :
  substring (String.length s) (String.length s') (s +:+ s') = s'.
Proof.
  induction s as [| c s IH]; [apply substring_all |].
  simpl. exact IH.
Qed.

Lemma endswith_app s s' : Str.endswith (s +:+ s') s' = true.
Proof.
  unfold Str.endswith. rewrite length_append.
  replace (String.length s + String.length s' - String.length s')
    with (String.length s) by lia.
  rewrite substring_suffix, String.eqb_refl.
  apply andb_true_intro. split; [apply Nat.leb_le; lia | reflexivity].
Qed.

Lemma visited_In fs folders file_extension folder fname :
  In (folder, fname) (visited fs folders file_extension)
  <-> In folder folders /\ isdir fs folder = true /\ In fname (listdir fs folder)
      /\ Str.endswith (Str.lower fname) (Str.lower file_extension) = true.
Proof.
  unfold visited. rewrite in_flat_map. split.
  - intros (f & Hf & Hin).
    destruct (isdir fs f) eqn:Hd; cbn [negb] in Hin; [| destruct Hin].
    apply in_map_iff in Hin as (n & Heq & Hn). inversion Heq; subst f n.
    apply filter_In in Hn as [Hl He]. auto.
  - intros (Hf & Hd & Hl & He). exists folder. split; [exact Hf |].
    rewrite Hd. cbn [negb]. apply in_map. apply filter_In. auto.
Qed.

Lemma plan_ingest_table_from_csv_sets fs folder fname column_types :
  fst (plan_ingest_table_from_csv fs folder fname column_types) = Ok tt ->
  Forall (fun u => is_Some (snd u))
         (snd (plan_ingest_table_from_csv fs folder fname column_types)).
Proof.
  unfold plan_ingest_table_from_csv.
  destruct (getsize fs (folder ++ [fname])) as [size | e]; [| discriminate].
  destruct (size =? 0); [constructor |].
  destruct (read_file fs (folder ++ [fname])) as [content | e]; [| discriminate].
  unfold plan_load.
  destruct (plan_ensure_table _ _ _) as [[[] | e] us]; [| discriminate].
  intros _. repeat constructor. cbn [snd]. eexists. reflexivity.
Qed.

Lemma assigned_sets k (us : effect) :
  Forall (fun u => is_Some (snd u)) us ->
  assigned k us = None \/ exists t, assigned k us = Some (Some t).
Proof.
  induction 1 as [| u us [t Hu] _ IH]; [left; reflexivity |].
  cbn [assigned]. destruct IH as [-> | [t' ->]]; [| right; eauto].
  destruct (decide (fst u = k)); [right; rewrite Hu; eauto | left; reflexivity].
Qed.

(** X22. The multi-folder run tests the extension without regard to
    letter case.  When the run returns, every entry of a listed
    directory whose name ends in the configured extension written in any
    letter case, a zero-byte file apart, has been read as a file, and
    the committed store holds a table under the entry's name without its
    extension. *)
Theorem entry_with_extension_in_any_case_is_loaded :
  forall (fs : node) (folders : list path) (file_extension : string)
         (column_types : option (list string)) (w : world),
    fst (main fs folders file_extension column_types w) = Ok tt ->
    forall (folder : path) (base e : string),
      In folder folders ->
      isdir fs folder = true ->
      In (base +:+ e) (listdir fs folder) ->
      Str.lower e = Str.lower file_extension ->
      getsize fs (folder ++ [base +:+ e]) <> Ok 0 ->
      In (folder, base +:+ e) (visited fs folders file_extension)
      /\ (exists content, read_file fs (folder ++ [base +:+ e]) = Ok content)
      /\ is_Some (durable (snd (main fs folders file_extension column_types w))
                    !! splitext_root (base +:+ e)).
Proof.
  intros fs folders file_extension column_types w Hok folder base e
         Hf Hd Hl He Hsize.
  assert (In (folder, base +:+ e) (visited fs folders file_extension)) as Hin.
  { apply visited_In. repeat split; try assumption.
    rewrite lower_app, He. apply endswith_app. }
  split; [exact Hin |].
  destruct (main_run fs folders file_extension column_types w) as [Hr Hdur].
  cbv zeta in Hr, Hdur. rewrite Hr in Hok. rewrite Hdur, Hok. cbn [is_ok].
  rewrite plan_main_visited in *.
  apply in_split in Hin as (before & after & Hv). rewrite Hv in *.
  apply plan_seq_ok in Hok as [Hall ->].
  rewrite apply_all_lookup.
  rewrite map_app in *. cbn [map fst snd] in *.
  apply Forall_app in Hall as [_ Hall]. apply Forall_cons in Hall as [Hj Hall].
  destruct (plan_ingest_table_from_csv_ok fs folder (base +:+ e) column_types Hsize Hj)
    as (content & Hread & Hsnd).
  split; [exists content; exact Hread |].
  rewrite map_app, concat_app. cbn [map concat]. rewrite Hsnd.
  rewrite !assigned_app.
  destruct (assigned_sets (splitext_root (base +:+ e))
              (concat (map snd
                 (map (fun j => plan_ingest_table_from_csv fs (fst j) (snd j) column_types)
                      after)))) as [-> | [t ->]].
  - apply Forall_concat. apply Forall_map. apply Forall_map.
    eapply Forall_impl; [exact (proj1 (Forall_map _ _ _) Hall) |].
    cbn beta. intros j Hjok. apply plan_ingest_table_from_csv_sets. exact Hjok.
  - simpl. destruct (decide (splitext_root (base +:+ e) = splitext_root (base +:+ e)));
      [eexists; reflexivity | contradiction].
  - eexists. reflexivity.
Qed.

Lemma entry_with_extension_in_any_case_is_loaded_witness :
  In (["data"], "Stock" +:+ ".CSV") (visited upper_case_entry [["data"]] ".csv")
  /\ (exists content, read_file upper_case_entry (["data"] ++ ["Stock" +:+ ".CSV"]) = Ok content)
  /\ is_Some (durable (snd (main upper_case_entry [["data"]] ".csv" None empty_world))
                !! splitext_root ("Stock" +:+ ".CSV")).
Proof.
  apply (entry_with_extension_in_any_case_is_loaded upper_case_entry [["data"]] ".csv"
           None empty_world eq_refl ["data"] "Stock" ".CSV").
  - left. reflexivity.
  - reflexivity.
  - left. reflexivity.
  - reflexivity.
  - vm_compute. discriminate.
Defined.
